(** * decopatch: first-argument disambiguation

    A shallow embedding of [decopatch/utils_disambiguation.py]: the
    rule-based engine [disambiguate_call], the last-resort disambiguator
    built by [create_single_arg_callable_or_class_disambiguator] and the
    call-site inspection [disambiguate_using_introspection]. *)

From Stdlib Require Import Ascii String.
From stdpp Require Import base option list strings gmap.

Set Warnings "-register-all".

(** ** Python values

    Only three facts about a Python object matter to the module: its
    identity ([is]), whether it is [callable] and whether [isclass] holds.
    Objects that exist before the call are named by their kind and a number;
    tuples and dicts stand for the containers that the argument binder
    allocates for [*args] and [**kwargs]. *)

Inductive ObjKind : Type :=
| KClass       (* a class: callable, and isclass is true *)
| KCallable    (* a function or any other callable that is not a class *)
| KPlain.      (* neither callable nor a class: 42, None, a string *)

#[global] Instance ObjKind_eq_dec : EqDecision ObjKind.
Proof. solve_decision. Defined.

Inductive Value : Type :=
| Obj (k : ObjKind) (id : nat)
| Tuple (items : list Value)
| Dict (items : list (string * Value)).

(** [a is b]. A container allocated by the binder is a new object: it is
    identical to no object named before the call. *)
Definition is_ (a b : Value) : bool :=
  match a, b with
  | Obj k i, Obj k' i' => bool_decide (k = k') && bool_decide (i = i')
  | _, _ => false
  end.

Definition callable (v : Value) : bool :=
  match v with
  | Obj KClass _ | Obj KCallable _ => true
  | _ => false
  end.

Definition isclass (v : Value) : bool :=
  match v with
  | Obj KClass _ => true
  | _ => false
  end.

(** The class object [DecoratorUsageInfo] itself, which the class uses as its
    'uninitialized' marker, and [inspect.Parameter.empty] (also a class). *)
Definition DecoratorUsageInfo_cls : Value := Obj KClass 0.
Definition Parameter_empty : Value := Obj KClass 1.

(** ** Exceptions and results *)

Inductive ErrMsg : Type :=
| Msg (text : string)
| MsgFormat (template : string) (name : string) (v : Value).  (* template % (name, v) *)

Inductive PyExn : Type :=
| Exception (msg : ErrMsg)
| KeyError (key : string)
| TypeError (text : string)
| IndexError
| StopIteration.

Inductive Result (A : Type) : Type :=
| Ok (a : A)
| Raise (e : PyExn).
Arguments Ok {A} a.
Arguments Raise {A} e.

(** [try: body / except Exception: handler]; every exception of [PyExn] is
    an [Exception]. *)
Definition try_except {A} (body : Result A) (handler : PyExn -> Result A) : Result A :=
  match body with
  | Ok a => Ok a
  | Raise e => handler e
  end.

(** ** class FirstArgDisambiguation(Enum) *)

Inductive FirstArgDisambiguation : Type :=
| is_normal_arg
| is_decorated_target
| is_ambiguous.

#[global] Instance FirstArgDisambiguation_eq_dec : EqDecision FirstArgDisambiguation.
Proof. solve_decision. Defined.

Definition _WITH_PARENTHESIS : FirstArgDisambiguation := is_normal_arg.
Definition _NO_PARENTHESIS : FirstArgDisambiguation := is_decorated_target.

Definition can_arg_be_a_decorator_target (arg : Value) : bool :=
  callable arg || isclass arg.

(** ** Signatures ([inspect.Signature]) and [SignatureInfo] *)

Inductive ParameterKind : Type :=
| POSITIONAL_ONLY
| POSITIONAL_OR_KEYWORD
| VAR_POSITIONAL
| KEYWORD_ONLY
| VAR_KEYWORD.

#[global] Instance ParameterKind_eq_dec : EqDecision ParameterKind.
Proof. solve_decision. Defined.

(** [inspect.Parameter]; [default] is [Parameter_empty] for a parameter
    without a default. *)
Record Param : Type := {
  kind : ParameterKind;
  default : Value;
}.

Record BoundArguments : Type := {
  arguments : gmap string Value;
}.

(** A signature object: its ordered [parameters] mapping and its [bind]
    method, which returns a [BoundArguments] or raises. *)
Record Signature : Type := {
  parameters : list (string * Param);
  bind : list Value -> gmap string Value -> Result BoundArguments;
}.

(** The attributes of [decopatch.utils_signatures.SignatureInfo] that this
    module reads; the class itself is defined in another module, so every
    property below holds for any values of these attributes. *)
Record SignatureInfo : Type := {
  exposed_signature : Signature;
  first_arg_def : Param;
  first_arg_name : string;
  is_first_arg_varpositional : bool;
  is_first_arg_positional_only : bool;
  is_first_arg_mandatory : bool;
}.

(** ** class DecoratorUsageInfo *)

Record DecoratorUsageInfo : Type := {
  sig_info : SignatureInfo;
  args : list Value;
  kwargs : gmap string Value;
  _first_arg_value : Value;
  _bound : option BoundArguments;
}.

(** [DecoratorUsageInfo.__init__] *)
Definition new_DecoratorUsageInfo (si : SignatureInfo) (a : list Value)
    (kw : gmap string Value) : DecoratorUsageInfo :=
  {| sig_info := si; args := a; kwargs := kw;
     _first_arg_value := DecoratorUsageInfo_cls;  (* 'uninitialized' *)
     _bound := None |}.

(** ** The monad of the engine

    A computation reads and updates the [DecoratorUsageInfo] it works on,
    returns or raises, and leaves a log of the calls it made: a call of
    [exposed_signature.bind], a fill of [_first_arg_value] from the bound
    arguments, a call of the fallback disambiguator. *)

Inductive Event : Type :=
| EBind
| EFirstArgRead
| EFallback (v : Value).

Definition M (A : Type) : Type :=
  DecoratorUsageInfo -> Result A * DecoratorUsageInfo * list Event.

#[global] Instance M_ret : MRet M :=
  fun A a dk => (Ok a, dk, []).

#[global] Instance M_bind : MBind M :=
  fun A B k m dk =>
    match m dk with
    | (Ok a, dk1, t1) =>
        match k a dk1 with
        | (r, dk2, t2) => (r, dk2, t1 ++ t2)
        end
    | (Raise e, dk1, t1) => (Raise e, dk1, t1)
    end.

Definition get : M DecoratorUsageInfo := fun dk => (Ok dk, dk, []).
Definition raise {A} (e : PyExn) : M A := fun dk => (Raise e, dk, []).
Definition emit (ev : Event) : M unit := fun dk => (Ok tt, dk, [ev]).
Definition lift {A} (r : Result A) : M A := fun dk => (r, dk, []).

(** [self._first_arg_value = v] and [self._bound = b] *)
Definition with_first_arg_value (dk : DecoratorUsageInfo) (v : Value)
    : DecoratorUsageInfo :=
  {| sig_info := sig_info dk; args := args dk; kwargs := kwargs dk;
     _first_arg_value := v; _bound := _bound dk |}.

Definition with_bound (dk : DecoratorUsageInfo) (b : BoundArguments)
    : DecoratorUsageInfo :=
  {| sig_info := sig_info dk; args := args dk; kwargs := kwargs dk;
     _first_arg_value := _first_arg_value dk; _bound := Some b |}.

Definition set_first_arg_value (v : Value) : M unit := fun dk =>
  (Ok tt, with_first_arg_value dk v, []).

Definition set_bound (b : BoundArguments) : M unit := fun dk =>
  (Ok tt, with_bound dk b, []).

(** What a run returned or raised, the object it left, the calls it made. *)
Definition result_of {A} (o : Result A * DecoratorUsageInfo * list Event) : Result A :=
  o.1.1.
Definition state_of {A} (o : Result A * DecoratorUsageInfo * list Event)
    : DecoratorUsageInfo := o.1.2.
Definition log_of {A} (o : Result A * DecoratorUsageInfo * list Event) : list Event :=
  o.2.

(** [d[key]] on a dict *)
Definition getitem (d : gmap string Value) (key : string) : M Value :=
  match d !! key with
  | Some v => mret v
  | None => raise (KeyError key)
  end.

(** property [bound] *)
Definition bound : M BoundArguments :=
  dk ← get;
  match _bound dk with
  | None =>
      emit EBind;;
      b ← lift (bind (exposed_signature (sig_info dk)) (args dk) (kwargs dk));
      set_bound b;;
      mret b
  | Some b => mret b
  end.

(** property [first_arg_value] *)
Definition first_arg_value : M Value :=
  dk ← get;
  (if is_ (_first_arg_value dk) DecoratorUsageInfo_cls then  (* not yet initialized *)
     b ← bound;
     emit EFirstArgRead;;
     v ← getitem (arguments b) (first_arg_name (sig_info dk));
     set_first_arg_value v
   else mret tt);;
  dk' ← get;
  mret (_first_arg_value dk').

(** ** disambiguate_call

    The [for] loop of lines 100-104 over the parameters after the first:
    [Some v] stands for [return v] inside the loop, [None] for a loop that
    ran to its end. *)
Fixpoint scan_other_params (params : list (string * Param))
    : M (option FirstArgDisambiguation) :=
  match params with
  | [] => mret None
  | (p_name, p_def) :: rest =>
      b ← bound;
      x ← getitem (arguments b) p_name;
      if negb (is_ x (default p_def)) then mret (Some _WITH_PARENTHESIS)
      else scan_other_params rest
  end.

Definition internal_error_posonly : PyExn :=
  Exception (Msg
    "Internal error - this should not happen, please file an issue on the github page").

(** Step (1), lines 69-88: the number of positional-only arguments
    received. [Some v] stands for [return v], [None] for falling through to
    step (2). *)
Definition count_rule : M (option FirstArgDisambiguation) :=
  dk ← get;
  let nb_posonly_received := length (args dk) in
  if is_first_arg_varpositional (sig_info dk)
     || is_first_arg_positional_only (sig_info dk) then
    if nb_posonly_received =? 0 then mret (Some _WITH_PARENTHESIS)
    else if 2 <=? nb_posonly_received then mret (Some _WITH_PARENTHESIS)
    else
      match args dk with
      | a0 :: _ => set_first_arg_value a0;; mret None
      | [] => raise IndexError
      end
  else
    if 0 <? nb_posonly_received then raise internal_error_posonly
    else mret None.

(** Steps (2) and (3), lines 90-109: the values themselves, then the
    fallback. *)
Definition value_rules (disambiguator : Value -> Result FirstArgDisambiguation)
    : M FirstArgDisambiguation :=
  dk ← get;
  v1 ← first_arg_value;
  if negb (can_arg_be_a_decorator_target v1) then mret _WITH_PARENTHESIS
  else
    v2 ← first_arg_value;
    if is_ v2 (default (first_arg_def (sig_info dk))) then mret _WITH_PARENTHESIS
    else
      r ← match parameters (exposed_signature (sig_info dk)) with
          | [] => raise StopIteration            (* next(params) *)
          | _ :: params => scan_other_params params
          end;
      match r with
      | Some verdict => mret verdict
      | None =>
          v3 ← first_arg_value;
          emit (EFallback v3);;
          lift (disambiguator v3)
      end.

(** The whole function: step (1), then steps (2) and (3) unless step (1)
    returned. *)
Definition disambiguate_call (dk : DecoratorUsageInfo)
    (disambiguator : Value -> Result FirstArgDisambiguation)
    : Result FirstArgDisambiguation * DecoratorUsageInfo * list Event :=
  (r ← count_rule;
   match r with
   | Some verdict => mret verdict
   | None => value_rules disambiguator
   end) dk.

(** ** disambiguate_using_introspection

    Strings are sequences of code points below 256. *)

Definition startswith (s pre : string) : bool := String.prefix pre s.

(** [c in s] for a one-character [c] *)
Fixpoint contains (s : string) (c : ascii) : bool :=
  match s with
  | EmptyString => false
  | String c' rest => bool_decide (c' = c) || contains rest c
  end.

Definition isspace (c : ascii) : bool :=
  let n := nat_of_ascii c in
  ((9 <=? n) && (n <=? 13)) || ((28 <=? n) && (n <=? 32))
  || (n =? 133) || (n =? 160).

Fixpoint lstrip (s : string) : string :=
  match s with
  | EmptyString => EmptyString
  | String c rest => if isspace c then lstrip rest else s
  end.

(** One entry of [inspect.stack(context=1)]: index 1 is the file name,
    index 4 the list of source lines, [None] when the source is missing. *)
Record FrameInfo : Type := {
  filename : string;
  code_context : option (list string);
}.

(** A decorator implementation function, of which only [__name__] is read. *)
Record Callable : Type := {
  __name__ : string;
}.

Definition jupyter_error (decorator_function : Callable) (first_arg_received : Value)
    : PyExn :=
  Exception (MsgFormat
    ("Decorator disambiguation using stack introspection is not available in Jupyter/iPython."
     +:+ " Please use the decorator in a non-ambiguous way. For example use explicit parenthesis"
     +:+ " @%s() for no-arg usage, or use 2 non-default arguments, or use explicit keywords. "
     +:+ "Ambiguous argument received: %s.")
    (__name__ decorator_function) first_arg_received).

(** The body of the [try] block, lines 208-245. *)
Definition introspection_try_body (calframe : list FrameInfo)
    (decorator_function : Callable) (first_arg_received : Value)
    : Result (option FirstArgDisambiguation) :=
  match calframe !! 5 with
  | None => Raise IndexError
  | Some frame =>
      if startswith (filename frame) "<" then
        Raise (jupyter_error decorator_function first_arg_received)
      else
        match code_context frame with
        | None => Raise (TypeError "'NoneType' object is not subscriptable")
        | Some [] => Raise IndexError
        | Some (line :: _) =>
            let cal_line_str := lstrip line in
            if startswith cal_line_str "@" then
              if negb (contains cal_line_str "(") then Ok (Some is_decorated_target)
              else Ok (Some is_normal_arg)
            else Ok (Some is_normal_arg)
        end
  end.

(** [calframe] is what [stack(context=1)] returns when the function runs. *)
Definition disambiguate_using_introspection (calframe : list FrameInfo)
    (decorator_function : Callable) (first_arg_received : Value)
    : Result (option FirstArgDisambiguation) :=
  if isclass first_arg_received then Ok None
  else
    try_except
      (introspection_try_body calframe decorator_function first_arg_received)
      (fun _ => Ok None).

(** ** create_single_arg_callable_or_class_disambiguator *)

Definition internal_error_not_hit : PyExn :=
  Exception (Msg "Internal error - this line of code is not supposed to be hit").

(** The closure [disambiguate_call(first_arg_received)] that the function
    returns, as a function of the captured arguments. [None] for
    [can_first_arg_be_ambiguous] and for
    [callable_or_cls_firstarg_disambiguator] is Python's [None]. *)
Definition create_single_arg_callable_or_class_disambiguator
    (calframe : list FrameInfo)
    (impl_function : Callable)
    (is_function_decorator is_class_decorator : bool)
    (can_first_arg_be_ambiguous : option bool)
    (callable_or_cls_firstarg_disambiguator :
       option (Value -> Result FirstArgDisambiguation))
    (enable_stack_introspection : bool)
    (signature_knowledge : SignatureInfo)
    (first_arg_received : Value) : Result FirstArgDisambiguation :=
  match (if enable_stack_introspection then
            disambiguate_using_introspection calframe impl_function first_arg_received
          else Ok None) with
  | Raise e => Raise e
  | Ok (Some res) => Ok res
  | Ok None =>
      if callable first_arg_received && negb (isclass first_arg_received)
         && negb is_function_decorator then
        Ok is_normal_arg
      else if isclass first_arg_received && negb is_class_decorator then
        Ok is_normal_arg
      else
        match callable_or_cls_firstarg_disambiguator with
        | Some custom => custom first_arg_received
        | None =>
            match can_first_arg_be_ambiguous with
            | Some true => Ok is_ambiguous
            | Some false => Ok is_decorated_target
            | None =>
                if is_first_arg_mandatory signature_knowledge then
                  Ok is_decorated_target
                else Raise internal_error_not_hit
            end
        end
  end.

(** ** A model of [inspect.Signature.bind]

    Python's standard binder, as the exposed signature runs it: positional
    arguments first, then keywords; a parameter that receives no argument
    and has a default is left out of [arguments]. *)

Definition has_key (d : gmap string Value) (key : string) : bool :=
  match d !! key with
  | Some _ => true
  | None => false
  end.

Definition has_default (p : Param) : bool := negb (is_ (default p) Parameter_empty).

(** The positional phase: returns the arguments bound so far and the
    parameters left for the keyword phase. *)
Fixpoint bind_positional (params : list (string * Param)) (arg_vals : list Value)
    (kw : gmap string Value) (acc : gmap string Value)
    : Result (gmap string Value * list (string * Param)) :=
  match arg_vals with
  | [] =>
      match params with
      | [] => Ok (acc, [])
      | (name, param) :: rest =>
          match kind param with
          | VAR_POSITIONAL => Ok (acc, rest)
          | k =>
              if has_key kw name then
                match k with
                | POSITIONAL_ONLY =>
                    Raise (TypeError
                      ("'" +:+ name +:+ "' parameter is positional only, but was passed as a keyword"))
                | _ => Ok (acc, params)
                end
              else if bool_decide (k = VAR_KEYWORD) || has_default param then
                Ok (acc, params)
              else Raise (TypeError ("missing a required argument: '" +:+ name +:+ "'"))
          end
      end
  | arg_val :: more =>
      match params with
      | [] => Raise (TypeError "too many positional arguments")
      | (name, param) :: rest =>
          match kind param with
          | VAR_KEYWORD | KEYWORD_ONLY => Raise (TypeError "too many positional arguments")
          | VAR_POSITIONAL => Ok (<[name := Tuple (arg_val :: more)]> acc, rest)
          | k =>
              if has_key kw name && negb (bool_decide (k = POSITIONAL_ONLY)) then
                Raise (TypeError ("multiple values for argument '" +:+ name +:+ "'"))
              else bind_positional rest more kw (<[name := arg_val]> acc)
          end
      end
  end.

(** The keyword phase: returns the keywords not consumed, the arguments and
    the name of the [**kwargs] parameter if there is one. *)
Fixpoint bind_keywords (params : list (string * Param)) (kw acc : gmap string Value)
    (kwargs_param : option string)
    : Result (gmap string Value * gmap string Value * option string) :=
  match params with
  | [] => Ok (kw, acc, kwargs_param)
  | (name, param) :: rest =>
      match kind param with
      | VAR_KEYWORD => bind_keywords rest kw acc (Some name)
      | VAR_POSITIONAL => bind_keywords rest kw acc kwargs_param
      | k =>
          match kw !! name with
          | None =>
              if has_default param then bind_keywords rest kw acc kwargs_param
              else Raise (TypeError ("missing a required argument: '" +:+ name +:+ "'"))
          | Some arg_val =>
              match k with
              | POSITIONAL_ONLY =>
                  Raise (TypeError
                    ("'" +:+ name +:+ "' parameter is positional only, but was passed as a keyword"))
              | _ => bind_keywords rest (delete name kw) (<[name := arg_val]> acc) kwargs_param
              end
          end
      end
  end.

(** The whole binder. Python's message for an unexpected keyword goes on to
    name one of the keywords left over; the text here stops before the
    name. *)
Definition Signature_bind (params : list (string * Param)) (a : list Value)
    (kw : gmap string Value) : Result BoundArguments :=
  match bind_positional params a kw ∅ with
  | Raise e => Raise e
  | Ok (acc, rest) =>
      match bind_keywords rest kw acc None with
      | Raise e => Raise e
      | Ok (left_over, acc', kwargs_param) =>
          match map_to_list left_over, kwargs_param with
          | [], _ => Ok {| arguments := acc' |}
          | items, Some name => Ok {| arguments := <[name := Dict items]> acc' |}
          | _, None => Raise (TypeError "got an unexpected keyword argument")
          end
      end
  end.

(** The signature object of a parameter list. *)
Definition signature (params : list (string * Param)) : Signature :=
  {| parameters := params; bind := Signature_bind params |}.

(** ** Conditions on a call of the last-resort disambiguator

    No definitive verdict comes from the call site: introspection is
    disabled, or it is enabled and returns [None]. *)
Definition introspection_silent (calframe : list FrameInfo) (impl_function : Callable)
    (first_arg_received : Value) (enable_stack_introspection : bool) : Prop :=
  enable_stack_introspection = true ->
  disambiguate_using_introspection calframe impl_function first_arg_received = Ok None.

(** Neither of the two cannot-be-a-target eliminations applies. *)
Definition not_eliminated (is_function_decorator is_class_decorator : bool)
    (first_arg_received : Value) : Prop :=
  callable first_arg_received && negb (isclass first_arg_received)
    && negb is_function_decorator = false
  /\ isclass first_arg_received && negb is_class_decorator = false.

(** ** Notions used to state the properties

    What the loop over the other parameters computes from the bound
    arguments [b]. *)
Fixpoint scan_bound (b : BoundArguments) (params : list (string * Param))
    : Result (option FirstArgDisambiguation) :=
  match params with
  | [] => Ok None
  | (p_name, p_def) :: rest =>
      match arguments b !! p_name with
      | None => Raise (KeyError p_name)
      | Some x =>
          if negb (is_ x (default p_def)) then Ok (Some _WITH_PARENTHESIS)
          else scan_bound b rest
      end
  end.

(** The values the fallback disambiguator was called with, in order. *)
Definition fallback_calls (t : list Event) : list Value :=
  omap (fun ev => match ev with EFallback v => Some v | _ => None end) t.

(** The 'uninitialized' marker is not what the binder gives the first
    parameter. *)
Definition no_marker (si : SignatureInfo) (a : list Value) (kw : gmap string Value)
    : Prop :=
  forall b v,
    bind (exposed_signature si) a kw = Ok b ->
    arguments b !! first_arg_name si = Some v ->
    is_ v DecoratorUsageInfo_cls = false.

(** ** Sample objects used by the examples below *)

Definition some_function : Value := Obj KCallable 7.
Definition some_class : Value := Obj KClass 8.
Definition forty_two : Value := Obj KPlain 42.
Definition my_decorator : Callable := {| __name__ := "my_decorator" |}.

Definition frame_of (file : string) (line : string) : FrameInfo :=
  {| filename := file; code_context := Some [line] |}.

(** A stack whose first five frames are inside the library and whose sixth
    frame, index 5, is the call site. *)
Definition stack_with_call_site (site : FrameInfo) : list FrameInfo :=
  replicate 5 (frame_of "decopatch/main.py" "    return f(*args, **kwargs)") ++ [site].

(** Parameters without and with a default, and [*name]. *)
Definition mandatory (k : ParameterKind) : Param :=
  {| kind := k; default := Parameter_empty |}.
Definition optional (k : ParameterKind) (d : Value) : Param :=
  {| kind := k; default := d |}.
Definition var_positional : Param :=
  {| kind := VAR_POSITIONAL; default := Parameter_empty |}.

(** For the examples: the [SignatureInfo] of a parameter list whose first
    parameter has the given name and definition. The kind flags follow the
    kind of the first parameter, which is mandatory when it has no default. *)
Definition info_of (params : list (string * Param)) (name : string) (p : Param)
    : SignatureInfo :=
  {| exposed_signature := signature params;
     first_arg_def := p;
     first_arg_name := name;
     is_first_arg_varpositional := bool_decide (kind p = VAR_POSITIONAL);
     is_first_arg_positional_only := bool_decide (kind p = POSITIONAL_ONLY);
     is_first_arg_mandatory := is_ (default p) Parameter_empty |}.

(** [(f)] and [(f=42)] *)
Definition info_f : SignatureInfo :=
  info_of [("f"%string, mandatory POSITIONAL_OR_KEYWORD)] "f"
    (mandatory POSITIONAL_OR_KEYWORD).

Definition info_f_optional : SignatureInfo :=
  info_of [("f"%string, optional POSITIONAL_OR_KEYWORD forty_two)] "f"
    (optional POSITIONAL_OR_KEYWORD forty_two).

Definition default_b : Value := Obj KPlain 1.
Definition default_c : Value := Obj KPlain 2.

(** [(f, b=default_b)] *)
Definition info_f_b : SignatureInfo :=
  info_of [("f"%string, mandatory POSITIONAL_OR_KEYWORD);
           ("b"%string, optional POSITIONAL_OR_KEYWORD default_b)] "f"
    (mandatory POSITIONAL_OR_KEYWORD).

(** [(f, /, b=default_b)]: the first parameter is positional-only *)
Definition info_posonly_f_b : SignatureInfo :=
  info_of [("f"%string, mandatory POSITIONAL_ONLY);
           ("b"%string, optional POSITIONAL_OR_KEYWORD default_b)] "f"
    (mandatory POSITIONAL_ONLY).

(** A fallback that gives the same verdict for every value. *)
Definition always (verdict : FirstArgDisambiguation)
    : Value -> Result FirstArgDisambiguation := fun _ => Ok verdict.

(** [(f=some_function)] *)
Definition info_f_default : SignatureInfo :=
  info_of [("f"%string, optional POSITIONAL_OR_KEYWORD some_function)] "f"
    (optional POSITIONAL_OR_KEYWORD some_function).

(** [(f, g)]: two mandatory parameters *)
Definition info_f_g : SignatureInfo :=
  info_of [("f"%string, mandatory POSITIONAL_OR_KEYWORD);
           ("g"%string, mandatory POSITIONAL_OR_KEYWORD)] "f"
    (mandatory POSITIONAL_OR_KEYWORD).

(** [(f, b=default_b, /)]: both parameters are positional-only *)
Definition info_posonly_f_posonly_b : SignatureInfo :=
  info_of [("f"%string, mandatory POSITIONAL_ONLY);
           ("b"%string, optional POSITIONAL_ONLY default_b)] "f"
    (mandatory POSITIONAL_ONLY).

(** [(f, *rest, c=default_c)] *)
Definition info_f_rest_c : SignatureInfo :=
  info_of [("f"%string, mandatory POSITIONAL_OR_KEYWORD);
           ("rest"%string, var_positional);
           ("c"%string, optional KEYWORD_ONLY default_c)] "f"
    (mandatory POSITIONAL_OR_KEYWORD).

(** The last-resort disambiguator of a decorator for functions and classes,
    with no override, no custom disambiguator and no introspection. *)
Definition plain_last_resort (si : SignatureInfo)
    : Value -> Result FirstArgDisambiguation :=
  create_single_arg_callable_or_class_disambiguator [] my_decorator true true
    None None false si.

(** ** Further notions and sample signatures *)

(** The number of calls of the binder in a log. *)
Definition bind_calls (t : list Event) : nat :=
  length (omap (fun ev => match ev with EBind => Some tt | _ => None end) t).

(** [(f, /)] and [( *args )] *)
Definition info_posonly_f : SignatureInfo :=
  info_of [("f"%string, mandatory POSITIONAL_ONLY)] "f" (mandatory POSITIONAL_ONLY).

Definition info_varargs : SignatureInfo :=
  info_of [("args"%string, var_positional)] "args" var_positional.

(** The last-resort disambiguator of the same decorator with introspection
    enabled, as it answers under the call stack [calframe]. *)
Definition inspecting_last_resort (calframe : list FrameInfo) (si : SignatureInfo)
    : Value -> Result FirstArgDisambiguation :=
  create_single_arg_callable_or_class_disambiguator calframe my_decorator true true
    None None true si.

(** * Call-site inspection *)

Lemma startswith_at (s : string) :
  startswith s "@" = true <-> exists tail, s = String "@" tail.
Proof.
  unfold startswith. destruct s as [|c tail]; cbn [String.prefix].
  - split; [discriminate | intros [t Ht]; discriminate].
  - destruct (ascii_dec "@" c) as [<-|Hne].
    + split; [eauto | destruct tail; reflexivity].
    + split; [discriminate | intros [t Ht]; congruence].
Qed.

Lemma contains_In (s : string) (c : ascii) :
  contains s c = true <-> In c (list_ascii_of_string s).
Proof.
  induction s as [|c' rest IH]; simpl.
  - split; [discriminate | tauto].
  - rewrite orb_true_iff, bool_decide_eq_true, IH. tauto.
Qed.

Lemma introspection_try_body_line calframe decorator_function v frame line more :
  calframe !! 5 = Some frame ->
  startswith (filename frame) "<" = false ->
  code_context frame = Some (line :: more) ->
  introspection_try_body calframe decorator_function v =
    Ok (Some (if startswith (lstrip line) "@" && negb (contains (lstrip line) "(")
              then is_decorated_target else is_normal_arg)).
Proof.
  intros Hframe Hfile Hctx. unfold introspection_try_body.
  rewrite Hframe, Hfile, Hctx.
  destruct (startswith (lstrip line) "@"), (contains (lstrip line) "("); reflexivity.
Qed.

(** A class is not inspected at all. *)
Example introspection_skips_classes calframe :
  disambiguate_using_introspection calframe my_decorator some_class = Ok None.
Proof. reflexivity. Qed.

(** Whatever the call site, a file name that starts with '<' ends in the
    [except] clause. *)
Lemma interactive_frame_gives_None calframe decorator_function v frame :
  isclass v = false ->
  calframe !! 5 = Some frame ->
  startswith (filename frame) "<" = true ->
  introspection_try_body calframe decorator_function v
    = Raise (jupyter_error decorator_function v)
  /\ disambiguate_using_introspection calframe decorator_function v = Ok None.
Proof.
  intros Hcls Hframe Hfile.
  unfold disambiguate_using_introspection, introspection_try_body.
  rewrite Hcls, Hframe, Hfile. split; reflexivity.
Qed.

(** C1, as the code runs it: for a function received from a call site whose
    file name starts with '<', the body of the [try] block raises the
    descriptive error, and the enclosing [except Exception] turns it into the
    inconclusive result [None]; nothing reaches the caller. *)
Theorem introspection_swallows_interactive_error :
  let calframe := stack_with_call_site (frame_of "<ipython-input-1>" "@my_decorator") in
  isclass some_function = false
  /\ introspection_try_body calframe my_decorator some_function
     = Raise (jupyter_error my_decorator some_function)
  /\ disambiguate_using_introspection calframe my_decorator some_function = Ok None.
Proof. repeat split. Qed.

(** C8: once the trimmed source line of frame 5 is obtained for a value that
    is not a class, the verdict is determined by that line alone: '@' first
    and no '(' gives [is_decorated_target], '@' first and some '(' gives
    [is_normal_arg], no '@' first gives [is_normal_arg]. *)
Theorem introspection_verdict_of_line calframe decorator_function v frame line more :
  isclass v = false ->
  calframe !! 5 = Some frame ->
  startswith (filename frame) "<" = false ->
  code_context frame = Some (line :: more) ->
  let cal_line_str := lstrip line in
  let res := disambiguate_using_introspection calframe decorator_function v in
  ((exists tail, cal_line_str = String "@" tail) ->
     ~ In "("%char (list_ascii_of_string cal_line_str) ->
     res = Ok (Some is_decorated_target))
  /\ ((exists tail, cal_line_str = String "@" tail) ->
     In "("%char (list_ascii_of_string cal_line_str) ->
     res = Ok (Some is_normal_arg))
  /\ (~ (exists tail, cal_line_str = String "@" tail) ->
     res = Ok (Some is_normal_arg)).
Proof.
  intros Hcls Hframe Hfile Hctx cal_line_str res.
  assert (Hres : res = Ok (Some (if startswith cal_line_str "@"
                                     && negb (contains cal_line_str "(")
                                  then is_decorated_target else is_normal_arg))).
  { subst res. unfold disambiguate_using_introspection. rewrite Hcls.
    rewrite (introspection_try_body_line _ _ _ _ _ _ Hframe Hfile Hctx).
    reflexivity. }
  rewrite Hres. repeat split.
  - intros Hat Hno. apply startswith_at in Hat. rewrite Hat.
    destruct (contains cal_line_str "(") eqn:Hc; [|reflexivity].
    apply contains_In in Hc. contradiction.
  - intros Hat Hin. apply contains_In in Hin. rewrite Hin.
    rewrite andb_false_r. reflexivity.
  - intros Hnot. destruct (startswith cal_line_str "@") eqn:Hs; [|reflexivity].
    apply startswith_at in Hs. contradiction.
Qed.

Lemma introspection_verdict_of_line_witness :
  disambiguate_using_introspection
    (stack_with_call_site (frame_of "tests/test_it.py" "    @my_decorator"))
    my_decorator some_function
  = Ok (Some is_decorated_target).
Proof.
  refine (proj1 (introspection_verdict_of_line
    (stack_with_call_site (frame_of "tests/test_it.py" "    @my_decorator"))
    my_decorator some_function
    (frame_of "tests/test_it.py" "    @my_decorator") "    @my_decorator" []
    _ _ _ _) _ _).
  - reflexivity.
  - reflexivity.
  - reflexivity.
  - reflexivity.
  - exists "my_decorator"%string. reflexivity.
  - vm_compute. intuition discriminate.
Defined.

Lemma introspection_results calframe decorator_function v :
  disambiguate_using_introspection calframe decorator_function v = Ok None
  \/ disambiguate_using_introspection calframe decorator_function v
     = Ok (Some is_decorated_target)
  \/ disambiguate_using_introspection calframe decorator_function v
     = Ok (Some is_normal_arg).
Proof.
  unfold disambiguate_using_introspection, try_except, introspection_try_body.
  destruct (isclass v); [auto|].
  destruct (calframe !! 5) as [frame|]; [|auto].
  destruct (startswith (filename frame) "<"); [auto|].
  destruct (code_context frame) as [[|line more]|]; [auto| |auto].
  destruct (startswith (lstrip line) "@"), (negb (contains (lstrip line) "(")); auto.
Qed.

(** * The last-resort disambiguator *)

Section LastResort.
Variable calframe : list FrameInfo.
Variable impl_function : Callable.
Variables is_function_decorator is_class_decorator : bool.
Variable signature_knowledge : SignatureInfo.
Variable first_arg_received : Value.

Lemma last_resort_static_rules can_first_arg_be_ambiguous custom
    enable_stack_introspection :
  introspection_silent calframe impl_function first_arg_received
    enable_stack_introspection ->
  not_eliminated is_function_decorator is_class_decorator first_arg_received ->
  create_single_arg_callable_or_class_disambiguator calframe impl_function
    is_function_decorator is_class_decorator can_first_arg_be_ambiguous custom
    enable_stack_introspection signature_knowledge first_arg_received
  = match custom with
    | Some f => f first_arg_received
    | None =>
        match can_first_arg_be_ambiguous with
        | Some true => Ok is_ambiguous
        | Some false => Ok is_decorated_target
        | None =>
            if is_first_arg_mandatory signature_knowledge
            then Ok is_decorated_target else Raise internal_error_not_hit
        end
    end.
Proof.
  intros Hsilent [Hfun Hcls].
  unfold create_single_arg_callable_or_class_disambiguator.
  assert (Hintro :
    (if enable_stack_introspection
     then disambiguate_using_introspection calframe impl_function first_arg_received
     else Ok None) = Ok None).
  { destruct enable_stack_introspection; [apply Hsilent|]; reflexivity. }
  rewrite Hintro, Hfun, Hcls. reflexivity.
Qed.

(** C4: with both a custom disambiguator and a forced override configured,
    a value that neither introspection nor the cannot-be-a-target
    eliminations settle gets the custom disambiguator's result, whatever
    the override says. *)
Theorem custom_disambiguator_before_override
    (custom : Value -> Result FirstArgDisambiguation) (forced : bool)
    (enable_stack_introspection : bool) :
  introspection_silent calframe impl_function first_arg_received
    enable_stack_introspection ->
  not_eliminated is_function_decorator is_class_decorator first_arg_received ->
  create_single_arg_callable_or_class_disambiguator calframe impl_function
    is_function_decorator is_class_decorator (Some forced) (Some custom)
    enable_stack_introspection signature_knowledge first_arg_received
  = custom first_arg_received.
Proof.
  intros Hsilent Helim.
  apply (last_resort_static_rules (Some forced) (Some custom) _ Hsilent Helim).
Qed.

(** C5: with no custom disambiguator and no override, a value that neither
    introspection nor the eliminations settle is a decorated target when
    the first parameter is mandatory; when it is not, the call raises the
    internal error and returns no verdict. *)
Theorem default_policy_by_mandatoriness (enable_stack_introspection : bool) :
  introspection_silent calframe impl_function first_arg_received
    enable_stack_introspection ->
  not_eliminated is_function_decorator is_class_decorator first_arg_received ->
  let res :=
    create_single_arg_callable_or_class_disambiguator calframe impl_function
      is_function_decorator is_class_decorator None None
      enable_stack_introspection signature_knowledge first_arg_received in
  (is_first_arg_mandatory signature_knowledge = true -> res = Ok is_decorated_target)
  /\ (is_first_arg_mandatory signature_knowledge = false ->
      res = Raise internal_error_not_hit).
Proof.
  intros Hsilent Helim res. subst res.
  rewrite (last_resort_static_rules None None _ Hsilent Helim).
  split; intros ->; reflexivity.
Qed.

(** C10: introspection returns [None], [is_decorated_target] or
    [is_normal_arg], never [is_ambiguous] and never an exception; so if the
    disambiguator without introspection does not answer [is_ambiguous],
    the same disambiguator with introspection does not either. *)
Theorem introspection_never_ambiguous can_first_arg_be_ambiguous custom :
  (disambiguate_using_introspection calframe impl_function first_arg_received
     = Ok None
   \/ disambiguate_using_introspection calframe impl_function first_arg_received
     = Ok (Some is_decorated_target)
   \/ disambiguate_using_introspection calframe impl_function first_arg_received
     = Ok (Some is_normal_arg))
  /\ (create_single_arg_callable_or_class_disambiguator calframe impl_function
        is_function_decorator is_class_decorator can_first_arg_be_ambiguous custom
        false signature_knowledge first_arg_received <> Ok is_ambiguous ->
      create_single_arg_callable_or_class_disambiguator calframe impl_function
        is_function_decorator is_class_decorator can_first_arg_be_ambiguous custom
        true signature_knowledge first_arg_received <> Ok is_ambiguous).
Proof.
  split; [apply introspection_results|].
  unfold create_single_arg_callable_or_class_disambiguator.
  destruct (introspection_results calframe impl_function first_arg_received)
    as [-> | [-> | ->]]; [tauto | discriminate | discriminate].
Qed.
End LastResort.

Lemma custom_disambiguator_before_override_witness :
  create_single_arg_callable_or_class_disambiguator [] my_decorator true true
    (Some true) (Some (fun _ => Ok is_normal_arg)) true info_f some_function
  = Ok is_normal_arg.
Proof.
  apply (custom_disambiguator_before_override [] my_decorator true true info_f
           some_function (fun _ => Ok is_normal_arg) true true).
  - intros _. reflexivity.
  - split; reflexivity.
Defined.

Lemma default_policy_by_mandatoriness_witness :
  create_single_arg_callable_or_class_disambiguator [] my_decorator true true
    None None false info_f some_function = Ok is_decorated_target
  /\ create_single_arg_callable_or_class_disambiguator [] my_decorator true true
    None None false info_f_optional some_function = Raise internal_error_not_hit.
Proof.
  split.
  - apply (default_policy_by_mandatoriness [] my_decorator true true info_f
             some_function false).
    + intros H. discriminate H.
    + split; reflexivity.
    + reflexivity.
  - apply (default_policy_by_mandatoriness [] my_decorator true true info_f_optional
             some_function false).
    + intros H. discriminate H.
    + split; reflexivity.
    + reflexivity.
Defined.

Lemma introspection_never_ambiguous_witness :
  create_single_arg_callable_or_class_disambiguator
    (stack_with_call_site (frame_of "tests/test_it.py" "@my_decorator"))
    my_decorator true true None None true info_f some_function <> Ok is_ambiguous.
Proof.
  apply (introspection_never_ambiguous
           (stack_with_call_site (frame_of "tests/test_it.py" "@my_decorator"))
           my_decorator true true info_f some_function None None).
  discriminate.
Defined.

(** * The rule-based engine *)

(** ** The property reads and the loop, case by case *)

Ltac run_monad :=
  unfold mbind, mret, M_bind, M_ret, get, raise, emit, lift,
    set_first_arg_value, set_bound in *.

Lemma bound_cached dk b :
  _bound dk = Some b -> bound dk = (Ok b, dk, []).
Proof. intros H. unfold bound. run_monad. rewrite H. reflexivity. Qed.

Lemma bound_fresh dk :
  _bound dk = None ->
  bound dk = match bind (exposed_signature (sig_info dk)) (args dk) (kwargs dk) with
             | Ok b => (Ok b, with_bound dk b, [EBind])
             | Raise e => (Raise e, dk, [EBind])
             end.
Proof.
  intros H. unfold bound. run_monad. rewrite H.
  destruct (bind _ _ _); reflexivity.
Qed.

(** C3, amended: two or more positional arguments give [is_normal_arg] when
    the first parameter is variadic-positional or positional-only, and the
    internal error when it can be passed by keyword; either way the object is
    left as it was and no call is made. *)
Theorem two_positional_is_normal_arg dk disambiguator :
  2 <= length (args dk) ->
  (is_first_arg_varpositional (sig_info dk)
   || is_first_arg_positional_only (sig_info dk) = true ->
   disambiguate_call dk disambiguator = (Ok is_normal_arg, dk, []))
  /\ (is_first_arg_varpositional (sig_info dk)
      || is_first_arg_positional_only (sig_info dk) = false ->
      disambiguate_call dk disambiguator = (Raise internal_error_posonly, dk, [])).
Proof.
  intros Hn. unfold disambiguate_call, count_rule. run_monad.
  destruct (args dk) as [|a [|a' l]]; simpl in Hn; try lia.
  split; intros ->; reflexivity.
Qed.

(** [first_arg_value] in full: what it returns, the object it leaves and the
    calls it makes, by the state of the two cache slots. *)
Lemma first_arg_value_spec dk :
  first_arg_value dk =
    if is_ (_first_arg_value dk) DecoratorUsageInfo_cls then
      match _bound dk with
      | Some b =>
          match arguments b !! first_arg_name (sig_info dk) with
          | Some v => (Ok v, with_first_arg_value dk v, [EFirstArgRead])
          | None => (Raise (KeyError (first_arg_name (sig_info dk))), dk, [EFirstArgRead])
          end
      | None =>
          match bind (exposed_signature (sig_info dk)) (args dk) (kwargs dk) with
          | Ok b =>
              match arguments b !! first_arg_name (sig_info dk) with
              | Some v =>
                  (Ok v, with_first_arg_value (with_bound dk b) v, [EBind; EFirstArgRead])
              | None =>
                  (Raise (KeyError (first_arg_name (sig_info dk))), with_bound dk b,
                   [EBind; EFirstArgRead])
              end
          | Raise e => (Raise e, dk, [EBind])
          end
      end
    else (Ok (_first_arg_value dk), dk, []).
Proof.
  unfold first_arg_value, bound, getitem. run_monad.
  destruct (is_ (_first_arg_value dk) DecoratorUsageInfo_cls); [|reflexivity].
  destruct (_bound dk) as [b|].
  - destruct (arguments b !! first_arg_name (sig_info dk)); reflexivity.
  - destruct (bind _ _ _) as [b|e]; [|reflexivity].
    simpl. destruct (arguments b !! first_arg_name (sig_info dk)); reflexivity.
Qed.

Lemma count_rule_spec dk :
  count_rule dk =
    if is_first_arg_varpositional (sig_info dk)
       || is_first_arg_positional_only (sig_info dk) then
      match args dk with
      | [a0] => (Ok None, with_first_arg_value dk a0, [])
      | _ => (Ok (Some is_normal_arg), dk, [])
      end
    else
      match args dk with
      | [] => (Ok None, dk, [])
      | _ => (Raise internal_error_posonly, dk, [])
      end.
Proof.
  unfold count_rule. run_monad.
  destruct (_ || _); destruct (args dk) as [|a0 [|a1 l]]; reflexivity.
Qed.

(** A read that returned [v] is followed by reads that return [v] and leave
    the object alone; they go back to the bound arguments only when [v] is
    the marker. *)
Lemma first_arg_value_again dk v dk' t :
  first_arg_value dk = (Ok v, dk', t) ->
  first_arg_value dk' =
    (Ok v, dk', if is_ v DecoratorUsageInfo_cls then [EFirstArgRead] else []).
Proof.
  rewrite (first_arg_value_spec dk).
  destruct (is_ (_first_arg_value dk) DecoratorUsageInfo_cls) eqn:Hs.
  - destruct (_bound dk) as [b|] eqn:Hb.
    + destruct (arguments b !! first_arg_name (sig_info dk)) as [x|] eqn:Hx;
        [|discriminate].
      intros [= <- <- <-]. rewrite first_arg_value_spec. simpl.
      destruct (is_ x DecoratorUsageInfo_cls); [|reflexivity].
      rewrite Hb, Hx. reflexivity.
    + destruct (bind _ _ _) as [b|e]; [|discriminate].
      destruct (arguments b !! first_arg_name (sig_info dk)) as [x|] eqn:Hx;
        [|discriminate].
      intros [= <- <- <-]. rewrite first_arg_value_spec. simpl.
      destruct (is_ x DecoratorUsageInfo_cls); [|reflexivity].
      rewrite Hx. reflexivity.
  - intros [= <- <- <-]. rewrite first_arg_value_spec, Hs. reflexivity.
Qed.

Lemma count_rule_sig_info dk r dk' t :
  count_rule dk = (r, dk', t) -> sig_info dk' = sig_info dk.
Proof.
  rewrite count_rule_spec.
  destruct (_ || _); destruct (args dk) as [|a0 [|a1 l]]; intros [= <- <- <-]; reflexivity.
Qed.

(** C6: when the count rule leaves the call open and the value of the first
    argument is identical to the default of the first parameter, the verdict
    is [is_normal_arg]. *)
Theorem default_first_arg_is_normal_arg dk disambiguator v :
  result_of (count_rule dk) = Ok None ->
  result_of (first_arg_value (state_of (count_rule dk))) = Ok v ->
  is_ v (default (first_arg_def (sig_info dk))) = true ->
  result_of (disambiguate_call dk disambiguator) = Ok is_normal_arg.
Proof.
  unfold result_of, state_of, disambiguate_call.
  destruct (count_rule dk) as [[rc dk1] t1] eqn:Hcount. simpl.
  intros -> Hv Hdef.
  destruct (first_arg_value dk1) as [[rv dk2] t2] eqn:Hfirst. simpl in Hv. subst rv.
  pose proof (first_arg_value_again _ _ _ _ Hfirst) as Hagain.
  pose proof (count_rule_sig_info _ _ _ _ Hcount) as Hsig.
  unfold mbind, M_bind. rewrite Hcount.
  unfold value_rules. run_monad. rewrite Hfirst.
  destruct (negb (can_arg_be_a_decorator_target v)); [reflexivity|].
  rewrite Hagain, Hsig, Hdef. reflexivity.
Qed.

Lemma scan_cached b params : forall dk,
  _bound dk = Some b ->
  scan_other_params params dk = (scan_bound b params, dk, []).
Proof.
  induction params as [|[p_name p_def] rest IH]; intros dk Hb; [reflexivity|].
  cbn [scan_other_params scan_bound]. unfold mbind, M_bind.
  rewrite (bound_cached _ _ Hb). unfold getitem.
  destruct (arguments b !! p_name) as [x|]; [|reflexivity].
  unfold mret, M_ret.
  destruct (negb (is_ x (default p_def))); [reflexivity|].
  rewrite (IH _ Hb). reflexivity.
Qed.

Lemma scan_fresh params dk :
  _bound dk = None -> params <> [] ->
  scan_other_params params dk =
    match bind (exposed_signature (sig_info dk)) (args dk) (kwargs dk) with
    | Ok b => (scan_bound b params, with_bound dk b, [EBind])
    | Raise e => (Raise e, dk, [EBind])
    end.
Proof.
  intros Hb Hne. destruct params as [|[p_name p_def] rest]; [congruence|].
  cbn [scan_other_params scan_bound]. unfold mbind, M_bind.
  rewrite (bound_fresh _ Hb).
  destruct (bind _ _ _) as [b|e]; [|reflexivity].
  unfold getitem.
  destruct (arguments b !! p_name) as [x|]; [|reflexivity].
  unfold mret, M_ret.
  destruct (negb (is_ x (default p_def))); [reflexivity|].
  rewrite (scan_cached b rest (with_bound dk b) eq_refl). reflexivity.
Qed.

(** The loop binds at most once and otherwise only reads [b]. *)
Lemma scan_other_params_spec params dk :
  scan_other_params params dk =
    match params, _bound dk with
    | [], _ => (Ok None, dk, [])
    | _, Some b => (scan_bound b params, dk, [])
    | _, None =>
        match bind (exposed_signature (sig_info dk)) (args dk) (kwargs dk) with
        | Ok b => (scan_bound b params, with_bound dk b, [EBind])
        | Raise e => (Raise e, dk, [EBind])
        end
    end.
Proof.
  destruct params as [|p rest]; [reflexivity|].
  destruct (_bound dk) as [b|] eqn:Hb.
  - apply scan_cached, Hb.
  - apply scan_fresh; [exact Hb | discriminate].
Qed.

(** [value_rules], with the property reads and the loop spelled out. *)
Lemma value_rules_unfold f dk :
  value_rules f dk =
    match first_arg_value dk with
    | (Raise e, dk1, t1) => (Raise e, dk1, t1)
    | (Ok v1, dk1, t1) =>
        if negb (can_arg_be_a_decorator_target v1) then (Ok is_normal_arg, dk1, t1 ++ [])
        else
          match first_arg_value dk1 with
          | (Raise e, dk2, t2) => (Raise e, dk2, t1 ++ t2)
          | (Ok v2, dk2, t2) =>
              if is_ v2 (default (first_arg_def (sig_info dk)))
              then (Ok is_normal_arg, dk2, t1 ++ t2 ++ [])
              else
                match parameters (exposed_signature (sig_info dk)) with
                | [] => (Raise StopIteration, dk2, t1 ++ t2 ++ [])
                | _ :: params =>
                    match scan_other_params params dk2 with
                    | (Raise e, dk3, t3) => (Raise e, dk3, t1 ++ t2 ++ t3)
                    | (Ok (Some verdict), dk3, t3) => (Ok verdict, dk3, t1 ++ t2 ++ t3 ++ [])
                    | (Ok None, dk3, t3) =>
                        match first_arg_value dk3 with
                        | (Raise e, dk4, t4) => (Raise e, dk4, t1 ++ t2 ++ t3 ++ t4)
                        | (Ok v3, dk4, t4) =>
                            (f v3, dk4, t1 ++ t2 ++ t3 ++ t4 ++ [EFallback v3])
                        end
                    end
                end
          end
    end.
Proof.
  unfold value_rules. run_monad. simpl.
  destruct (first_arg_value dk) as [[[v1|e1] dk1] t1]; [|reflexivity].
  destruct (negb (can_arg_be_a_decorator_target v1)); [reflexivity|].
  destruct (first_arg_value dk1) as [[[v2|e2] dk2] t2]; [|reflexivity].
  destruct (is_ v2 _); [reflexivity|].
  destruct (parameters _) as [|p0 params]; [reflexivity|].
  destruct (scan_other_params params dk2) as [[[[verdict|]|e3] dk3] t3];
    [reflexivity| |reflexivity].
  destruct (first_arg_value dk3) as [[[v3|e4] dk4] t4]; reflexivity.
Qed.

(** Runs both sides of a goal about [value_rules] along every path of the
    code: unfolds a property read or the loop, then splits on what it
    tests. *)
Ltac step_run :=
  first
    [ done
    | congruence
    | progress simplify_eq
    | match goal with
      | H : context [value_rules ?f ?d] |- _ => rewrite (value_rules_unfold f d) in H
      | |- context [value_rules ?f ?d] => rewrite (value_rules_unfold f d)
      | H : context [first_arg_value ?d] |- _ => rewrite (first_arg_value_spec d) in H
      | |- context [first_arg_value ?d] => rewrite (first_arg_value_spec d)
      | H : context [scan_other_params ?p ?d] |- _ =>
          rewrite (scan_other_params_spec p d) in H
      | |- context [scan_other_params ?p ?d] => rewrite (scan_other_params_spec p d)
      end
    | progress cbn [with_bound with_first_arg_value _bound _first_arg_value sig_info
                    args kwargs fst snd] in *
    | match goal with
      | H : context [match ?x with _ => _ end] |- _ => destruct x eqn:?
      | |- context [match ?x with _ => _ end] => destruct x eqn:?
      end ].

Ltac crunch_run := repeat step_run.

Lemma bound_spec dk :
  bound dk =
    match _bound dk with
    | Some b => (Ok b, dk, [])
    | None =>
        match bind (exposed_signature (sig_info dk)) (args dk) (kwargs dk) with
        | Ok b => (Ok b, with_bound dk b, [EBind])
        | Raise e => (Raise e, dk, [EBind])
        end
    end.
Proof.
  destruct (_bound dk) as [b|] eqn:Hb; [apply bound_cached | apply bound_fresh]; done.
Qed.

Lemma scan_bound_defaults b params :
  (forall n q, In (n, q) params ->
     exists x, arguments b !! n = Some x /\ is_ x (default q) = true) ->
  scan_bound b params = Ok None.
Proof.
  induction params as [|[n q] rest IH]; intros H; [reflexivity|].
  simpl. destruct (H n q) as (x & -> & ->); [left; reflexivity|].
  simpl. apply IH. intros n' q' Hin. apply H. right. exact Hin.
Qed.

Lemma scan_bound_non_default b pre name p post x :
  (forall n q, In (n, q) pre -> is_Some (arguments b !! n)) ->
  arguments b !! name = Some x ->
  is_ x (default p) = false ->
  scan_bound b (pre ++ (name, p) :: post) = Ok (Some is_normal_arg).
Proof.
  intros Hpre Hx Hnd. induction pre as [|[n q] rest IH]; simpl.
  - rewrite Hx, Hnd. reflexivity.
  - destruct (Hpre n q) as [y ->]; [left; reflexivity|].
    destruct (negb (is_ y (default q))); [reflexivity|].
    apply IH. intros n' q' Hin. apply (Hpre n' q'). right. exact Hin.
Qed.

Lemma fallback_calls_app t1 t2 :
  fallback_calls (t1 ++ t2) = fallback_calls t1 ++ fallback_calls t2.
Proof. apply omap_app. Qed.

(** C7, amended: the count rule leaves the call open, the value [v] of the
    first argument can be a decoration target and is not its default. If one
    of the other parameters is bound to a value that is not its default and
    every parameter declared before it is in the bound arguments, the verdict
    is [is_normal_arg] and the fallback is not called. If every other
    parameter is bound to its default, the fallback is called once, on [v],
    and its result is the result of the call. *)
Theorem other_parameters_rule dk f v first others :
  result_of (count_rule dk) = Ok None ->
  let dk1 := state_of (count_rule dk) in
  result_of (first_arg_value dk1) = Ok v ->
  let dk2 := state_of (first_arg_value dk1) in
  can_arg_be_a_decorator_target v = true ->
  is_ v (default (first_arg_def (sig_info dk))) = false ->
  parameters (exposed_signature (sig_info dk)) = first :: others ->
  let run := disambiguate_call dk f in
  (forall b pre name p post x,
     others = pre ++ (name, p) :: post ->
     result_of (bound dk2) = Ok b ->
     (forall n q, In (n, q) pre -> is_Some (arguments b !! n)) ->
     arguments b !! name = Some x ->
     is_ x (default p) = false ->
     result_of run = Ok is_normal_arg /\ fallback_calls (log_of run) = [])
  /\ ((forall n q, In (n, q) others ->
        exists b x, result_of (bound dk2) = Ok b
                    /\ arguments b !! n = Some x /\ is_ x (default q) = true) ->
      result_of run = f v /\ fallback_calls (log_of run) = [v]).
Proof.
  intros Hcount dk1 Hfirst dk2 Htarget Hdefault Hparams run.
  subst run dk2 dk1. unfold disambiguate_call, mbind, M_bind.
  pose proof (count_rule_sig_info dk) as Hsig.
  destruct (count_rule dk) as [[rc dk1] tc] eqn:Hc.
  specialize (Hsig _ _ _ eq_refl).
  unfold result_of, state_of, log_of in *. simpl in Hcount, Hfirst |- *. subst rc.
  assert (Htc : tc = []).
  { rewrite count_rule_spec in Hc. crunch_run. }
  subst tc.
  destruct (first_arg_value dk1) as [[r1 dk2] t1] eqn:H1. simpl in Hfirst. subst r1.
  rewrite value_rules_unfold, H1, Htarget. simpl.
  rewrite (first_arg_value_again _ _ _ _ H1), Hsig, Hdefault, Hparams.
  assert (Hlog1 : fallback_calls t1 = []).
  { rewrite first_arg_value_spec in H1. crunch_run. }
  assert (Hfav : _first_arg_value dk2 = v
                 /\ (is_ v DecoratorUsageInfo_cls = true -> _bound dk2 <> None)).
  { rewrite first_arg_value_spec in H1. crunch_run; (split; [done|]); intros ?; crunch_run. }
  destruct Hfav as [Hfav Hread].
  rewrite scan_other_params_spec. rewrite bound_spec.
  assert (Hlogs : forall t3 t4 : list Event,
            fallback_calls t3 = [] -> fallback_calls t4 = [] ->
            fallback_calls
              (t1 ++ (if is_ v DecoratorUsageInfo_cls then [EFirstArgRead] else [])
                  ++ t3 ++ t4) = []).
  { intros t3 t4 H3 H4. rewrite !fallback_calls_app, Hlog1, H3, H4.
    destruct (is_ v DecoratorUsageInfo_cls); reflexivity. }
  split.
  - intros b pre name p post x -> Hb Hpre Hx Hnd.
    pose proof (scan_bound_non_default b pre name p post x Hpre Hx Hnd) as Hscan.
    destruct (pre ++ (name, p) :: post) as [|p0 ps] eqn:E; [by destruct pre|].
    destruct (_bound dk2) as [b0|].
    + simpl in Hb. injection Hb as ->. rewrite Hscan.
      split; [reflexivity | apply (Hlogs [] []); reflexivity].
    + destruct (bind _ _ _) as [b0|e]; simpl in Hb; [injection Hb as -> | discriminate].
      rewrite Hscan. split; [reflexivity | apply (Hlogs [EBind] []); reflexivity].
  - intros Hothers.
    destruct others as [|p0 ps].
    + rewrite (first_arg_value_again _ _ _ _ H1). split; [reflexivity|].
      cbn [snd]. rewrite !app_assoc, fallback_calls_app, <- !app_assoc.
      rewrite (Hlogs [] _); [reflexivity | reflexivity |].
      destruct (is_ v DecoratorUsageInfo_cls); reflexivity.
    + destruct (Hothers p0.1 p0.2) as (b & x0 & Hb & _); [left; by destruct p0|].
      assert (Hscan : scan_bound b (p0 :: ps) = Ok None).
      { apply scan_bound_defaults. intros n q Hin.
        destruct (Hothers n q Hin) as (b' & x & Hb' & Hx & Hd).
        exists x. split; [congruence | exact Hd]. }
      destruct (_bound dk2) as [b0|] eqn:Hbound.
      * simpl in Hb. injection Hb as ->. rewrite Hscan.
        rewrite (first_arg_value_again _ _ _ _ H1). split; [reflexivity|].
        cbn [snd]. rewrite !app_assoc, fallback_calls_app, <- !app_assoc.
        rewrite (Hlogs [] _); [reflexivity | reflexivity |].
        destruct (is_ v DecoratorUsageInfo_cls); reflexivity.
      * destruct (bind _ _ _) as [b0|e]; simpl in Hb; [injection Hb as -> | discriminate].
        rewrite Hscan, first_arg_value_spec. cbn [with_bound _first_arg_value].
        rewrite Hfav.
        destruct (is_ v DecoratorUsageInfo_cls) eqn:Hs; [by destruct Hread|].
        split; [reflexivity|].
        cbn [snd]. rewrite !app_assoc, fallback_calls_app, <- !app_assoc.
        rewrite !fallback_calls_app, Hlog1. reflexivity.
Qed.

Lemma scan_bound_total b params :
  (forall n q, In (n, q) params -> is_Some (arguments b !! n)) ->
  exists r, scan_bound b params = Ok r.
Proof.
  induction params as [|[n q] rest IH]; intros H; simpl; [eauto|].
  destruct (H n q) as [x ->]; [left; reflexivity|].
  destruct (negb (is_ x (default q))); [eauto|].
  apply IH. intros n' q' Hin. apply (H n' q'). right. exact Hin.
Qed.

Lemma value_rules_returns dk f b first others :
  bind (exposed_signature (sig_info dk)) (args dk) (kwargs dk) = Ok b ->
  (_bound dk = None \/ _bound dk = Some b) ->
  is_Some (arguments b !! first_arg_name (sig_info dk)) ->
  parameters (exposed_signature (sig_info dk)) = first :: others ->
  (forall n q, In (n, q) others -> is_Some (arguments b !! n)) ->
  (forall v, exists verdict, f v = Ok verdict) ->
  exists verdict, result_of (value_rules f dk) = Ok verdict.
Proof.
  intros Hbind Hbound [x Hx] Hparams Hothers Hf.
  destruct (scan_bound_total b others Hothers) as [rs Hscan].
  unfold result_of. rewrite value_rules_unfold, Hparams.
  destruct Hbound as [Hb | Hb].
  - crunch_run; eauto.
  - crunch_run; eauto.
Qed.

(** C2, amended: the binder succeeds, the bound arguments hold the first
    parameter and every other declared parameter, and the fallback returns.
    Then the call raises the internal error when the first parameter can be
    passed by keyword and a positional argument is received, and returns a
    verdict in every other case. *)
Theorem raises_only_on_positional_breach si a kw f b first others :
  bind (exposed_signature si) a kw = Ok b ->
  is_Some (arguments b !! first_arg_name si) ->
  parameters (exposed_signature si) = first :: others ->
  (forall n q, In (n, q) others -> is_Some (arguments b !! n)) ->
  (forall v, exists verdict, f v = Ok verdict) ->
  let res := result_of (disambiguate_call (new_DecoratorUsageInfo si a kw) f) in
  let breach :=
    is_first_arg_varpositional si || is_first_arg_positional_only si = false
    /\ 0 < length a in
  (breach -> res = Raise internal_error_posonly)
  /\ (~ breach -> exists verdict, res = Ok verdict).
Proof.
  intros Hbind Hx Hparams Hothers Hf res breach. subst res breach.
  assert (Hvalue : forall dk,
            sig_info dk = si -> args dk = a -> kwargs dk = kw -> _bound dk = None ->
            exists verdict, result_of (value_rules f dk) = Ok verdict).
  { intros dk <- <- <- Hnone.
    apply (value_rules_returns dk f b first others); auto. }
  unfold result_of, disambiguate_call, mbind, M_bind.
  rewrite count_rule_spec. cbn [new_DecoratorUsageInfo sig_info args].
  destruct (is_first_arg_varpositional si || is_first_arg_positional_only si).
  - split; [intros [? _]; discriminate | intros _].
    destruct a as [|a0 [|a1 l]]; [simpl; eauto| |simpl; eauto].
    destruct (Hvalue (with_first_arg_value (new_DecoratorUsageInfo si [a0] kw) a0))
      as [verdict Hv]; try reflexivity.
    exists verdict. unfold result_of in Hv.
    destruct (value_rules f _) as [[r dk'] t]. exact Hv.
  - destruct a as [|a0 l].
    + split; [simpl; intros [_ ?]; lia | intros _].
      destruct (Hvalue (new_DecoratorUsageInfo si [] kw)) as [verdict Hv];
        try reflexivity.
      exists verdict. unfold result_of in Hv.
      destruct (value_rules f _) as [[r dk'] t]. exact Hv.
    + split; [reflexivity | intros Hno].
      destruct Hno. split; [reflexivity | simpl; lia].
Qed.

Ltac use_marker H :=
  match goal with
  | Hx : arguments ?b !! _ = Some ?v |- _ =>
      let H' := fresh in
      pose proof (H b v eq_refl Hx) as H'; congruence
  end.

Ltac finish_rerun :=
  repeat match goal with
  | |- _ /\ _ => split
  end;
  cbn;
  try reflexivity;
  try congruence;
  try (intuition congruence);
  try (let H := fresh in intros H; rewrite H by (left; reflexivity); congruence).

(** ** Running twice

    Steps (2) and (3) run again on the object they left: first from that
    object as it is, then with [_first_arg_value] set anew by step (1). The
    fallback of the second run need not be the fallback of the first. *)
Lemma value_rules_rerun_same dk f1 f2 verdict dk1 t :
  _bound dk = None ->
  is_ (_first_arg_value dk) DecoratorUsageInfo_cls = true ->
  value_rules f1 dk = (Ok verdict, dk1, t) ->
  state_of (value_rules f2 dk1) = dk1
  /\ ~ In EBind (log_of (value_rules f2 dk1))
  /\ fallback_calls (log_of (value_rules f2 dk1)) = fallback_calls t
  /\ ((forall v, In v (fallback_calls t) -> f2 v = f1 v) ->
      result_of (value_rules f2 dk1) = Ok verdict)
  /\ (no_marker (sig_info dk) (args dk) (kwargs dk) ->
      ~ In EFirstArgRead (log_of (value_rules f2 dk1))).
Proof.
  intros Hnone Hs Hrun.
  unfold result_of, state_of, log_of, no_marker.
  rewrite value_rules_unfold, first_arg_value_spec, Hs, Hnone in Hrun.
  destruct (bind _ _ _) as [b|e] eqn:Hbind; [|discriminate].
  destruct (arguments b !! first_arg_name (sig_info dk)) as [v|] eqn:Hv; [|discriminate].
  crunch_run; finish_rerun.
  all: try (intros Hno; exfalso; use_marker Hno).
Qed.

Lemma value_rules_rerun_reset dk f1 f2 verdict dk1 t :
  _bound dk = None ->
  value_rules f1 dk = (Ok verdict, dk1, t) ->
  let dk' := with_first_arg_value dk1 (_first_arg_value dk) in
  state_of (value_rules f2 dk') = dk1
  /\ ~ In EBind (log_of (value_rules f2 dk'))
  /\ fallback_calls (log_of (value_rules f2 dk')) = fallback_calls t
  /\ ((forall v, In v (fallback_calls t) -> f2 v = f1 v) ->
      result_of (value_rules f2 dk') = Ok verdict)
  /\ (is_ (_first_arg_value dk) DecoratorUsageInfo_cls = false ->
      ~ In EFirstArgRead (log_of (value_rules f2 dk'))).
Proof.
  intros Hnone Hrun dk'. subst dk'.
  unfold result_of, state_of, log_of.
  rewrite value_rules_unfold, first_arg_value_spec, Hnone in Hrun.
  destruct (is_ (_first_arg_value dk) DecoratorUsageInfo_cls) eqn:Hs.
  - destruct (bind _ _ _) as [b|e] eqn:Hbind; [|discriminate].
    destruct (arguments b !! first_arg_name (sig_info dk)) as [v|] eqn:Hv; [|discriminate].
    crunch_run; finish_rerun.
  - crunch_run; finish_rerun.
    all: by destruct dk1.
Qed.

Lemma value_rules_frame f dk r dk1 t :
  value_rules f dk = (r, dk1, t) ->
  sig_info dk1 = sig_info dk /\ args dk1 = args dk /\ kwargs dk1 = kwargs dk.
Proof. intros Hrun. crunch_run. Qed.

Lemma disambiguate_call_unfold dk f :
  disambiguate_call dk f =
    if is_first_arg_varpositional (sig_info dk)
       || is_first_arg_positional_only (sig_info dk) then
      match args dk with
      | [a0] => value_rules f (with_first_arg_value dk a0)
      | _ => (Ok is_normal_arg, dk, [])
      end
    else
      match args dk with
      | [] => value_rules f dk
      | _ => (Raise internal_error_posonly, dk, [])
      end.
Proof.
  unfold disambiguate_call, mbind, M_bind. rewrite count_rule_spec.
  destruct (_ || _); destruct (args dk) as [|a0 [|a1 l]]; try reflexivity.
  - by destruct (value_rules f _) as [[r dk2] t2].
  - by destruct (value_rules f _) as [[r dk2] t2].
Qed.

(** The last-resort disambiguator of one static policy, called under two
    call stacks, answers alike when introspection is disabled or frame 5 is
    the same. *)
Lemma last_resort_same_call_site calframe1 calframe2 impl_function
    is_function_decorator is_class_decorator can_first_arg_be_ambiguous custom
    enable_stack_introspection signature_knowledge v :
  enable_stack_introspection = false \/ calframe1 !! 5 = calframe2 !! 5 ->
  create_single_arg_callable_or_class_disambiguator calframe2 impl_function
    is_function_decorator is_class_decorator can_first_arg_be_ambiguous custom
    enable_stack_introspection signature_knowledge v
  = create_single_arg_callable_or_class_disambiguator calframe1 impl_function
      is_function_decorator is_class_decorator can_first_arg_be_ambiguous custom
      enable_stack_introspection signature_knowledge v.
Proof.
  unfold create_single_arg_callable_or_class_disambiguator.
  intros [-> | Hframe]; [reflexivity|].
  assert (Hsame :
    disambiguate_using_introspection calframe2 impl_function v
    = disambiguate_using_introspection calframe1 impl_function v).
  { unfold disambiguate_using_introspection, introspection_try_body.
    rewrite Hframe. reflexivity. }
  rewrite Hsame. reflexivity.
Qed.

(** The two runs of [disambiguate_call], with any two fallbacks. *)
Lemma second_run_facts si a kw f1 f2 verdict :
  let dk0 := new_DecoratorUsageInfo si a kw in
  let run1 := disambiguate_call dk0 f1 in
  result_of run1 = Ok verdict ->
  let dk1 := state_of run1 in
  let run2 := disambiguate_call dk1 f2 in
  state_of run2 = dk1
  /\ ~ In EBind (log_of run2)
  /\ fallback_calls (log_of run2) = fallback_calls (log_of run1)
  /\ ((forall v, In v (fallback_calls (log_of run1)) -> f2 v = f1 v) ->
      result_of run2 = Ok verdict)
  /\ ((forall a0, head a = Some a0 -> is_ a0 DecoratorUsageInfo_cls = false) ->
      no_marker si a kw ->
      ~ In EFirstArgRead (log_of run2)).
Proof.
  intros dk0 run1 Hrun1 dk1 run2. subst run2 dk1 run1.
  revert Hrun1. rewrite (disambiguate_call_unfold dk0).
  subst dk0. cbn [new_DecoratorUsageInfo sig_info args].
  destruct (is_first_arg_varpositional si || is_first_arg_positional_only si) eqn:Hkind;
    destruct a as [|a0 [|a1 l]]; try discriminate.
  - (* no positional argument: the count rule answers, nothing is touched *)
    intros [= <-]. cbn. rewrite disambiguate_call_unfold. cbn. rewrite Hkind.
    cbn. intuition congruence.
  - (* one positional argument *)
    set (dk := with_first_arg_value (new_DecoratorUsageInfo si [a0] kw) a0).
    destruct (value_rules f1 dk) as [[r dk1] t] eqn:Hrun. cbn. intros ->.
    destruct (value_rules_frame _ _ _ _ _ Hrun) as (Hsig & Hargs & _).
    rewrite disambiguate_call_unfold, Hsig, Hargs.
    cbn [dk with_first_arg_value new_DecoratorUsageInfo sig_info args].
    rewrite Hkind.
    destruct (value_rules_rerun_reset dk f1 f2 verdict dk1 t eq_refl Hrun)
      as (Hstate & Hbind & Hcalls & Hres & Hread).
    repeat split; try assumption.
    intros Hhead _. apply Hread. apply (Hhead a0). reflexivity.
  - (* two or more positional arguments *)
    intros [= <-]. cbn. rewrite disambiguate_call_unfold. cbn. rewrite Hkind.
    cbn. intuition congruence.
  - (* the first parameter can be passed by keyword *)
    set (dk := new_DecoratorUsageInfo si [] kw).
    destruct (value_rules f1 dk) as [[r dk1] t] eqn:Hrun. cbn. intros ->.
    destruct (value_rules_frame _ _ _ _ _ Hrun) as (Hsig & Hargs & _).
    rewrite disambiguate_call_unfold, Hsig, Hargs.
    cbn [dk new_DecoratorUsageInfo sig_info args].
    rewrite Hkind.
    destruct (value_rules_rerun_same dk f1 f2 verdict dk1 t eq_refl eq_refl Hrun)
      as (Hstate & Hbind & Hcalls & Hres & Hread).
    repeat split; try assumption.
    intros _ Hno. apply Hread. exact Hno.
Qed.

(** C9, amended: a first run returned a verdict; [f1] is the fallback as it
    answers during that run and [f2] as it answers during a second run on
    the object the first one left. The second run leaves the object as it
    is, does not call the binder again and calls the fallback on the value
    the first run called it on, or not at all if the first did not. It
    returns the same verdict when the fallback answers on that value as it
    did before, which the last-resort disambiguator of one static policy
    does when introspection is disabled or frame 5 of the call stack is the
    same for both runs. If neither the first positional argument nor the
    bound value of the first parameter is the 'uninitialized' marker, the
    second run does not look the first argument up again either. *)
Theorem second_run_stable si a kw f1 f2 verdict :
  let dk0 := new_DecoratorUsageInfo si a kw in
  let run1 := disambiguate_call dk0 f1 in
  result_of run1 = Ok verdict ->
  let dk1 := state_of run1 in
  let run2 := disambiguate_call dk1 f2 in
  state_of run2 = dk1
  /\ ~ In EBind (log_of run2)
  /\ fallback_calls (log_of run2) = fallback_calls (log_of run1)
  /\ ((forall v, In v (fallback_calls (log_of run1)) -> f2 v = f1 v) ->
      result_of run2 = Ok verdict)
  /\ (forall calframe1 calframe2 impl_function is_function_decorator
             is_class_decorator can_first_arg_be_ambiguous custom
             enable_stack_introspection signature_knowledge,
        f1 = create_single_arg_callable_or_class_disambiguator calframe1
               impl_function is_function_decorator is_class_decorator
               can_first_arg_be_ambiguous custom enable_stack_introspection
               signature_knowledge ->
        f2 = create_single_arg_callable_or_class_disambiguator calframe2
               impl_function is_function_decorator is_class_decorator
               can_first_arg_be_ambiguous custom enable_stack_introspection
               signature_knowledge ->
        enable_stack_introspection = false \/ calframe1 !! 5 = calframe2 !! 5 ->
        result_of run2 = Ok verdict)
  /\ ((forall a0, head a = Some a0 -> is_ a0 DecoratorUsageInfo_cls = false) ->
      no_marker si a kw ->
      ~ In EFirstArgRead (log_of run2)).
Proof.
  intros dk0 run1 Hrun1 dk1 run2.
  destruct (second_run_facts si a kw f1 f2 verdict Hrun1)
    as (Hstate & Hbind & Hcalls & Hres & Hread).
  split; [exact Hstate|]. split; [exact Hbind|]. split; [exact Hcalls|].
  split; [exact Hres|]. split; [|exact Hread].
  intros calframe1 calframe2 impl_function is_function_decorator
    is_class_decorator can_first_arg_be_ambiguous custom
    enable_stack_introspection signature_knowledge Hf1 Hf2 Hsite.
  apply Hres. intros v _. rewrite Hf1, Hf2.
  apply last_resort_same_call_site, Hsite.
Qed.

(** * Examples and counterexamples for the rule-based engine *)

(** C2, counterexample: no positional argument is received and the first
    parameter can be passed by keyword, yet the call raises: the internal
    error of the last-resort disambiguator when [(f=42)] gets a function; the
    binder's [TypeError] when [(f, g)] gets no [g]; a [KeyError] when
    [(f, b=default_b)] gets no [b], which the binder then leaves out of the
    bound arguments. *)
Lemma other_exceptions_reach_the_caller :
  (let dk := new_DecoratorUsageInfo info_f_optional []
               {[ "f"%string := some_function ]} in
   is_first_arg_varpositional (sig_info dk)
   || is_first_arg_positional_only (sig_info dk) = false
   /\ args dk = []
   /\ result_of (disambiguate_call dk (plain_last_resort info_f_optional))
      = Raise internal_error_not_hit)
  /\ (let dk := new_DecoratorUsageInfo info_f_g [] {[ "f"%string := some_function ]} in
      is_first_arg_varpositional (sig_info dk)
      || is_first_arg_positional_only (sig_info dk) = false
      /\ args dk = []
      /\ result_of (disambiguate_call dk (always is_decorated_target))
         = Raise (TypeError "missing a required argument: 'g'"))
  /\ (let dk := new_DecoratorUsageInfo info_f_b [] {[ "f"%string := some_function ]} in
      is_first_arg_varpositional (sig_info dk)
      || is_first_arg_positional_only (sig_info dk) = false
      /\ args dk = []
      /\ result_of (disambiguate_call dk (always is_decorated_target))
         = Raise (KeyError "b")).
Proof. repeat split. Qed.

Lemma raises_only_on_positional_breach_witness :
  (exists verdict,
     result_of (disambiguate_call
       (new_DecoratorUsageInfo info_f_b []
          {[ "f"%string := some_function; "b"%string := default_b ]})
       (always is_decorated_target)) = Ok verdict)
  /\ result_of (disambiguate_call
       (new_DecoratorUsageInfo info_f_b [some_function]
          {[ "b"%string := default_b ]})
       (always is_decorated_target)) = Raise internal_error_posonly.
Proof.
  split.
  - refine (proj2 (raises_only_on_positional_breach info_f_b []
      {[ "f"%string := some_function; "b"%string := default_b ]}
      (always is_decorated_target)
      {| arguments := {[ "f"%string := some_function; "b"%string := default_b ]} |}
      ("f"%string, mandatory POSITIONAL_OR_KEYWORD)
      [("b"%string, optional POSITIONAL_OR_KEYWORD default_b)] _ _ _ _ _) _).
    + reflexivity.
    + exists some_function. reflexivity.
    + reflexivity.
    + intros n q [[= <- <-] | []]. exists default_b. reflexivity.
    + intros v. exists is_decorated_target. reflexivity.
    + simpl. intros [_ H]. lia.
  - refine (proj1 (raises_only_on_positional_breach info_f_b [some_function]
      {[ "b"%string := default_b ]}
      (always is_decorated_target)
      {| arguments := {[ "f"%string := some_function; "b"%string := default_b ]} |}
      ("f"%string, mandatory POSITIONAL_OR_KEYWORD)
      [("b"%string, optional POSITIONAL_OR_KEYWORD default_b)] _ _ _ _ _) _).
    + reflexivity.
    + exists some_function. reflexivity.
    + reflexivity.
    + intros n q [[= <- <-] | []]. exists default_b. reflexivity.
    + intros v. exists is_decorated_target. reflexivity.
    + simpl. split; [reflexivity | lia].
Defined.

(** C3, counterexample: two positional arguments and a first parameter that
    can be passed by keyword: the call raises the internal error, it does
    not answer [is_normal_arg]. *)
Lemma two_positional_keyword_capable_raises :
  let dk := new_DecoratorUsageInfo info_f [some_function; forty_two] ∅ in
  2 <= length (args dk)
  /\ result_of (disambiguate_call dk (always is_decorated_target))
     = Raise internal_error_posonly
  /\ result_of (disambiguate_call dk (always is_decorated_target))
     <> Ok is_normal_arg.
Proof. repeat split; [simpl; lia | discriminate]. Qed.

Lemma two_positional_is_normal_arg_witness :
  disambiguate_call
    (new_DecoratorUsageInfo info_posonly_f_b [some_function; forty_two] ∅)
    (always is_decorated_target)
  = (Ok is_normal_arg,
     new_DecoratorUsageInfo info_posonly_f_b [some_function; forty_two] ∅, []).
Proof.
  refine (proj1 (two_positional_is_normal_arg
           (new_DecoratorUsageInfo info_posonly_f_b [some_function; forty_two] ∅)
           (always is_decorated_target) _) _).
  - simpl. lia.
  - reflexivity.
Defined.

Lemma default_first_arg_is_normal_arg_witness :
  result_of (disambiguate_call
    (new_DecoratorUsageInfo info_f_default [] {[ "f"%string := some_function ]})
    (always is_decorated_target)) = Ok is_normal_arg.
Proof.
  apply (default_first_arg_is_normal_arg
           (new_DecoratorUsageInfo info_f_default [] {[ "f"%string := some_function ]})
           (always is_decorated_target) some_function).
  - reflexivity.
  - reflexivity.
  - reflexivity.
Defined.

(** C7, counterexample. First, [(f, b=default_b, /)] called with a function
    and with the very default of [b]: the first argument can be a target and
    is not its default, [b] is bound to its default, but the count rule has
    already answered [is_normal_arg] and the fallback, which would say
    [is_decorated_target], is not called. Second, [(f, *rest, c=default_c)]
    called with [f] and a non-default [c]: the loop reaches [rest] first,
    which the binder leaves out when it is empty, and raises [KeyError]. *)
Lemma other_parameters_rule_not_reached :
  (let dk := new_DecoratorUsageInfo info_posonly_f_posonly_b
               [some_function; default_b] ∅ in
   let run := disambiguate_call dk (always is_decorated_target) in
   result_of (first_arg_value dk) = Ok some_function
   /\ can_arg_be_a_decorator_target some_function = true
   /\ is_ some_function (default (first_arg_def (sig_info dk))) = false
   /\ (exists b, result_of (bound dk) = Ok b
                 /\ arguments b !! "b"%string = Some default_b)
   /\ result_of run = Ok is_normal_arg
   /\ fallback_calls (log_of run) = [])
  /\ (let dk := new_DecoratorUsageInfo info_f_rest_c []
                  {[ "f"%string := some_function; "c"%string := forty_two ]} in
      result_of (count_rule dk) = Ok None
      /\ result_of (first_arg_value dk) = Ok some_function
      /\ can_arg_be_a_decorator_target some_function = true
      /\ is_ some_function (default (first_arg_def (sig_info dk))) = false
      /\ (exists b, result_of (bound dk) = Ok b
                    /\ arguments b !! "c"%string = Some forty_two)
      /\ is_ forty_two default_c = false
      /\ result_of (disambiguate_call dk (always is_decorated_target))
         = Raise (KeyError "rest")).
Proof.
  split.
  - repeat split.
    exists {| arguments := {[ "f"%string := some_function; "b"%string := default_b ]} |}.
    split; reflexivity.
  - repeat split.
    exists {| arguments := {[ "f"%string := some_function; "c"%string := forty_two ]} |}.
    split; reflexivity.
Qed.

Lemma other_parameters_rule_witness :
  (let run := disambiguate_call
       (new_DecoratorUsageInfo info_f_b []
          {[ "f"%string := some_function; "b"%string := forty_two ]})
       (always is_decorated_target) in
   result_of run = Ok is_normal_arg /\ fallback_calls (log_of run) = [])
  /\ (let run := disambiguate_call
         (new_DecoratorUsageInfo info_f_b []
            {[ "f"%string := some_function; "b"%string := default_b ]})
         (always is_ambiguous) in
      result_of run = Ok is_ambiguous /\ fallback_calls (log_of run) = [some_function]).
Proof.
  split.
  - refine (proj1 (other_parameters_rule
      (new_DecoratorUsageInfo info_f_b []
         {[ "f"%string := some_function; "b"%string := forty_two ]})
      (always is_decorated_target) some_function
      ("f"%string, mandatory POSITIONAL_OR_KEYWORD)
      [("b"%string, optional POSITIONAL_OR_KEYWORD default_b)] _ _ _ _ _)
      {| arguments := {[ "f"%string := some_function; "b"%string := forty_two ]} |}
      [] "b"%string (optional POSITIONAL_OR_KEYWORD default_b) [] forty_two
      _ _ _ _ _); try reflexivity.
    intros n q [].
  - refine (proj2 (other_parameters_rule
      (new_DecoratorUsageInfo info_f_b []
         {[ "f"%string := some_function; "b"%string := default_b ]})
      (always is_ambiguous) some_function
      ("f"%string, mandatory POSITIONAL_OR_KEYWORD)
      [("b"%string, optional POSITIONAL_OR_KEYWORD default_b)] _ _ _ _ _) _);
      try reflexivity.
    intros n q [[= <- <-] | []].
    exists {| arguments := {[ "f"%string := some_function; "b"%string := default_b ]} |},
      default_b.
    repeat split.
Defined.

(** C9, counterexample. First, [(f)] called with the class
    [DecoratorUsageInfo] itself as [f]: both runs return the fallback's
    verdict, but the value stored in [_first_arg_value] still reads as
    'uninitialized', and the second run looks the first argument up in the
    bound arguments again. Second, [(f)] called with a function, under one
    static policy with introspection enabled: the first run is made from a
    call site that reads [@my_decorator], the second from one that reads
    [x = my_decorator(f)], and the two verdicts differ. *)
Lemma second_run_can_differ :
  (let dk0 := new_DecoratorUsageInfo info_f []
                {[ "f"%string := DecoratorUsageInfo_cls ]} in
   let run1 := disambiguate_call dk0 (always is_decorated_target) in
   let run2 := disambiguate_call (state_of run1) (always is_decorated_target) in
   result_of run1 = Ok is_decorated_target
   /\ result_of run2 = Ok is_decorated_target
   /\ In EFirstArgRead (log_of run2))
  /\ (let dk0 := new_DecoratorUsageInfo info_f [] {[ "f"%string := some_function ]} in
      let run1 :=
        disambiguate_call dk0
          (inspecting_last_resort
             (stack_with_call_site (frame_of "tests/test_it.py" "@my_decorator"))
             info_f) in
      let run2 :=
        disambiguate_call (state_of run1)
          (inspecting_last_resort
             (stack_with_call_site (frame_of "tests/test_it.py" "x = my_decorator(f)"))
             info_f) in
      result_of run1 = Ok is_decorated_target
      /\ result_of run2 = Ok is_normal_arg).
Proof. repeat split. left. reflexivity. Qed.

Lemma second_run_stable_witness :
  let site := frame_of "tests/test_it.py" "@my_decorator" in
  let dk0 := new_DecoratorUsageInfo info_f [] {[ "f"%string := some_function ]} in
  let dk1 :=
    state_of (disambiguate_call dk0
                (inspecting_last_resort (stack_with_call_site site) info_f)) in
  let run2 :=
    disambiguate_call dk1
      (inspecting_last_resort
         (stack_with_call_site site ++ [frame_of "run.py" "main()"]) info_f) in
  result_of run2 = Ok is_decorated_target
  /\ state_of run2 = dk1
  /\ ~ In EBind (log_of run2)
  /\ ~ In EFirstArgRead (log_of run2).
Proof.
  intros site dk0 dk1 run2.
  assert (Hrun1 :
    result_of (disambiguate_call dk0
      (inspecting_last_resort (stack_with_call_site site) info_f))
    = Ok is_decorated_target) by reflexivity.
  destruct (second_run_stable info_f [] {[ "f"%string := some_function ]}
              (inspecting_last_resort (stack_with_call_site site) info_f)
              (inspecting_last_resort
                 (stack_with_call_site site ++ [frame_of "run.py" "main()"]) info_f)
              is_decorated_target Hrun1)
    as (Hstate & Hbind & _ & _ & Hpolicy & Hread).
  split; [|split; [exact Hstate | split; [exact Hbind|]]].
  - apply (Hpolicy (stack_with_call_site site)
             (stack_with_call_site site ++ [frame_of "run.py" "main()"])
             my_decorator true true None None true info_f).
    + reflexivity.
    + reflexivity.
    + right. reflexivity.
  - apply Hread.
    + intros a0 H. discriminate H.
    + intros b v Hb Hv. vm_compute in Hb. injection Hb as <-.
      vm_compute in Hv. injection Hv as <-. reflexivity.
Defined.

(** * Further properties of the call-site inspection *)

Lemma lstrip_spaces (ws s : string) :
  Forall (fun c => isspace c = true) (list_ascii_of_string ws) ->
  lstrip (ws +:+ s) = lstrip s.
Proof.
  induction ws as [|c ws IH]; simpl; intros H; [reflexivity|].
  inversion H as [|? ? Hc Hws]; subst. rewrite Hc. apply IH, Hws.
Qed.

(** X1: the three ways the inspection fails give the inconclusive [None]: a
    stack with fewer than six frames, a frame 5 without source lines, a
    frame 5 whose list of source lines is empty. *)
Theorem introspection_failures_give_None calframe decorator_function v :
  (length calframe <= 5 ->
   disambiguate_using_introspection calframe decorator_function v = Ok None)
  /\ (forall frame, calframe !! 5 = Some frame ->
        startswith (filename frame) "<" = false ->
        code_context frame = None \/ code_context frame = Some [] ->
        disambiguate_using_introspection calframe decorator_function v = Ok None).
Proof.
  unfold disambiguate_using_introspection, try_except, introspection_try_body.
  split.
  - intros Hlen. destruct (isclass v); [reflexivity|].
    rewrite (lookup_ge_None_2 calframe 5) by lia. reflexivity.
  - intros frame -> -> [-> | ->]; destruct (isclass v); reflexivity.
Qed.

Lemma introspection_failures_give_None_witness :
  disambiguate_using_introspection [] my_decorator some_function = Ok None
  /\ disambiguate_using_introspection
       (stack_with_call_site {| filename := "a.py"; code_context := None |})
       my_decorator some_function = Ok None.
Proof.
  split.
  - apply (proj1 (introspection_failures_give_None [] my_decorator some_function)).
    simpl. lia.
  - apply (proj2 (introspection_failures_give_None
             (stack_with_call_site {| filename := "a.py"; code_context := None |})
             my_decorator some_function)
             {| filename := "a.py"; code_context := None |}).
    + reflexivity.
    + reflexivity.
    + left. reflexivity.
Defined.

(** X2: the result depends on the value only through [isclass] and on the
    stack only through frame 5; the decorator function, which may have been
    renamed, plays no part. *)
Theorem introspection_reads_frame_5_only calframe calframe' f f' v v' :
  isclass v = isclass v' ->
  calframe !! 5 = calframe' !! 5 ->
  disambiguate_using_introspection calframe f v
  = disambiguate_using_introspection calframe' f' v'.
Proof.
  intros Hcls Hframe.
  unfold disambiguate_using_introspection, try_except, introspection_try_body.
  rewrite Hcls, Hframe. destruct (isclass v'); [reflexivity|].
  destruct (calframe' !! 5) as [frame|]; [|reflexivity].
  destruct (startswith (filename frame) "<"); reflexivity.
Qed.

Lemma introspection_reads_frame_5_only_witness :
  disambiguate_using_introspection
    (stack_with_call_site (frame_of "a.py" "@deco")) my_decorator some_function
  = disambiguate_using_introspection
      ([] ++ stack_with_call_site (frame_of "a.py" "@deco") ++ [frame_of "b.py" "x"])
      {| __name__ := "renamed" |} forty_two.
Proof.
  apply (introspection_reads_frame_5_only
           (stack_with_call_site (frame_of "a.py" "@deco"))
           ([] ++ stack_with_call_site (frame_of "a.py" "@deco") ++ [frame_of "b.py" "x"])
           my_decorator {| __name__ := "renamed" |} some_function forty_two).
  - reflexivity.
  - reflexivity.
Defined.

(** X3: the verdict does not depend on how far the call-site line is
    indented, nor on the lines that follow it in the context. *)
Theorem introspection_ignores_indentation calframe calframe' f v frame frame'
    ws line more more' :
  calframe !! 5 = Some frame ->
  calframe' !! 5 = Some frame' ->
  filename frame' = filename frame ->
  code_context frame = Some (line :: more) ->
  code_context frame' = Some ((ws +:+ line) :: more') ->
  Forall (fun c => isspace c = true) (list_ascii_of_string ws) ->
  disambiguate_using_introspection calframe' f v
  = disambiguate_using_introspection calframe f v.
Proof.
  intros Hframe Hframe' Hfile Hctx Hctx' Hws.
  unfold disambiguate_using_introspection, try_except, introspection_try_body.
  rewrite Hframe, Hframe', Hfile, Hctx, Hctx', (lstrip_spaces ws line Hws).
  reflexivity.
Qed.

Lemma introspection_ignores_indentation_witness :
  disambiguate_using_introspection
    (stack_with_call_site (frame_of "a.py" "    @deco(1)")) my_decorator some_function
  = disambiguate_using_introspection
      (stack_with_call_site (frame_of "a.py" "@deco(1)")) my_decorator some_function.
Proof.
  apply (introspection_ignores_indentation
           (stack_with_call_site (frame_of "a.py" "@deco(1)"))
           (stack_with_call_site (frame_of "a.py" "    @deco(1)"))
           my_decorator some_function
           (frame_of "a.py" "@deco(1)") (frame_of "a.py" "    @deco(1)")
           "    " "@deco(1)" [] []).
  - reflexivity.
  - reflexivity.
  - reflexivity.
  - reflexivity.
  - reflexivity.
  - repeat constructor.
Defined.

(** * Further properties of the last-resort disambiguator *)

Section LastResortMore.
Variable calframe : list FrameInfo.
Variable impl_function : Callable.
Variables is_function_decorator is_class_decorator : bool.
Variable signature_knowledge : SignatureInfo.
Variable first_arg_received : Value.

(** X4: a value that cannot be a target of this decorator (a callable that
    is not a class when functions are not decorated, a class when classes
    are not decorated) is a normal argument whenever the call site gives no
    verdict; the custom disambiguator, the override and the mandatory flag
    are not looked at. *)
Theorem cannot_be_target_is_normal_arg can_first_arg_be_ambiguous custom
    enable_stack_introspection :
  introspection_silent calframe impl_function first_arg_received
    enable_stack_introspection ->
  (callable first_arg_received && negb (isclass first_arg_received)
     && negb is_function_decorator = true
   \/ isclass first_arg_received && negb is_class_decorator = true) ->
  create_single_arg_callable_or_class_disambiguator calframe impl_function
    is_function_decorator is_class_decorator can_first_arg_be_ambiguous custom
    enable_stack_introspection signature_knowledge first_arg_received
  = Ok is_normal_arg.
Proof.
  intros Hsilent Helim.
  unfold create_single_arg_callable_or_class_disambiguator.
  assert (Hintro :
    (if enable_stack_introspection
     then disambiguate_using_introspection calframe impl_function first_arg_received
     else Ok None) = Ok None).
  { destruct enable_stack_introspection; [apply Hsilent|]; reflexivity. }
  rewrite Hintro. destruct Helim as [-> | ->]; [reflexivity|].
  destruct (_ && _ && _); reflexivity.
Qed.

(** X5: without a custom disambiguator, the disambiguator raises in one
    state only: the call site gives no verdict, no elimination applies, no
    override is set and the first parameter is not mandatory; the exception
    is then the internal error. *)
Theorem last_resort_raises_iff can_first_arg_be_ambiguous
    enable_stack_introspection e :
  create_single_arg_callable_or_class_disambiguator calframe impl_function
    is_function_decorator is_class_decorator can_first_arg_be_ambiguous None
    enable_stack_introspection signature_knowledge first_arg_received
  = Raise e
  <-> e = internal_error_not_hit
      /\ introspection_silent calframe impl_function first_arg_received
           enable_stack_introspection
      /\ not_eliminated is_function_decorator is_class_decorator first_arg_received
      /\ can_first_arg_be_ambiguous = None
      /\ is_first_arg_mandatory signature_knowledge = false.
Proof.
  split.
  - unfold create_single_arg_callable_or_class_disambiguator,
      introspection_silent, not_eliminated.
    destruct enable_stack_introspection.
    + destruct (introspection_results calframe impl_function first_arg_received)
        as [-> | [-> | ->]]; try discriminate.
      destruct (_ && _ && _); [discriminate|].
      destruct (_ && _); [discriminate|].
      destruct can_first_arg_be_ambiguous as [[|]|]; try discriminate.
      destruct (is_first_arg_mandatory signature_knowledge); [discriminate|].
      intros [= <-]. auto.
    + destruct (_ && _ && _); [discriminate|].
      destruct (_ && _); [discriminate|].
      destruct can_first_arg_be_ambiguous as [[|]|]; try discriminate.
      destruct (is_first_arg_mandatory signature_knowledge); [discriminate|].
      intros [= <-]. repeat split; auto. discriminate.
  - intros (-> & Hsilent & Helim & -> & Hmand).
    rewrite (last_resort_static_rules _ _ _ _ _ _ None None _ Hsilent Helim), Hmand.
    reflexivity.
Qed.

(** X6: without a custom disambiguator, the verdict [is_ambiguous] is given
    only when the override says so. *)
Theorem ambiguous_only_when_forced can_first_arg_be_ambiguous
    enable_stack_introspection :
  create_single_arg_callable_or_class_disambiguator calframe impl_function
    is_function_decorator is_class_decorator can_first_arg_be_ambiguous None
    enable_stack_introspection signature_knowledge first_arg_received
  = Ok is_ambiguous ->
  can_first_arg_be_ambiguous = Some true.
Proof.
  unfold create_single_arg_callable_or_class_disambiguator.
  assert (Hstatic :
    (if callable first_arg_received && negb (isclass first_arg_received)
        && negb is_function_decorator
     then Ok is_normal_arg
     else if isclass first_arg_received && negb is_class_decorator
          then Ok is_normal_arg
          else match can_first_arg_be_ambiguous with
               | Some true => Ok is_ambiguous
               | Some false => Ok is_decorated_target
               | None => if is_first_arg_mandatory signature_knowledge
                         then Ok is_decorated_target
                         else Raise internal_error_not_hit
               end) = Ok is_ambiguous -> can_first_arg_be_ambiguous = Some true).
  { destruct (_ && _ && _); [discriminate|].
    destruct (_ && _); [discriminate|].
    destruct can_first_arg_be_ambiguous as [[|]|]; try discriminate; [reflexivity|].
    destruct (is_first_arg_mandatory signature_knowledge); discriminate. }
  destruct enable_stack_introspection; [|exact Hstatic].
  destruct (introspection_results calframe impl_function first_arg_received)
    as [-> | [-> | ->]]; [exact Hstatic | discriminate | discriminate].
Qed.

(** X7: for a class, enabling introspection changes nothing: the
    disambiguator answers as it does with introspection disabled, whatever
    the call stack. *)
Theorem introspection_is_idle_on_classes can_first_arg_be_ambiguous custom :
  isclass first_arg_received = true ->
  create_single_arg_callable_or_class_disambiguator calframe impl_function
    is_function_decorator is_class_decorator can_first_arg_be_ambiguous custom
    true signature_knowledge first_arg_received
  = create_single_arg_callable_or_class_disambiguator calframe impl_function
      is_function_decorator is_class_decorator can_first_arg_be_ambiguous custom
      false signature_knowledge first_arg_received.
Proof.
  intros Hcls. unfold create_single_arg_callable_or_class_disambiguator,
    disambiguate_using_introspection.
  rewrite Hcls. reflexivity.
Qed.

End LastResortMore.

(** * Further properties of the rule-based engine *)

(** X9: with a variadic-positional or positional-only first parameter, a
    call without positional argument is a normal-argument call; the object
    is left as it was and neither the binder nor the fallback is called. *)
Theorem no_positional_is_normal_arg dk disambiguator :
  is_first_arg_varpositional (sig_info dk)
  || is_first_arg_positional_only (sig_info dk) = true ->
  args dk = [] ->
  disambiguate_call dk disambiguator = (Ok is_normal_arg, dk, []).
Proof.
  intros Hkind Hargs. rewrite disambiguate_call_unfold, Hkind, Hargs. reflexivity.
Qed.

(** X10: binding is lazy. With a variadic-positional or positional-only
    first parameter and one positional argument, which is not the
    'uninitialized' marker, the argument itself is the first-argument value.
    If it cannot be a target or is the default of the first parameter, the
    verdict is [is_normal_arg]; if it can, is not the default, and the
    signature has no other parameter, the verdict is the fallback's. In both
    cases the binder is never called. *)
Theorem single_positional_never_binds dk disambiguator a0 :
  is_first_arg_varpositional (sig_info dk)
  || is_first_arg_positional_only (sig_info dk) = true ->
  args dk = [a0] ->
  is_ a0 DecoratorUsageInfo_cls = false ->
  (can_arg_be_a_decorator_target a0 = false
   \/ is_ a0 (default (first_arg_def (sig_info dk))) = true ->
   disambiguate_call dk disambiguator
   = (Ok is_normal_arg, with_first_arg_value dk a0, []))
  /\ (can_arg_be_a_decorator_target a0 = true ->
      is_ a0 (default (first_arg_def (sig_info dk))) = false ->
      (exists first, parameters (exposed_signature (sig_info dk)) = [first]) ->
      disambiguate_call dk disambiguator
      = (disambiguator a0, with_first_arg_value dk a0, [EFallback a0])).
Proof.
  intros Hkind Hargs Hmark.
  rewrite disambiguate_call_unfold, Hkind, Hargs, value_rules_unfold.
  rewrite !first_arg_value_spec. cbn [with_first_arg_value _first_arg_value sig_info].
  rewrite Hmark. split.
  - intros [Hnot | Hdef].
    + rewrite Hnot. reflexivity.
    + destruct (can_arg_be_a_decorator_target a0); [|reflexivity].
      cbn. rewrite first_arg_value_spec. cbn. rewrite Hmark, Hdef. reflexivity.
  - intros Htarget Hdef [first Hparams]. rewrite Htarget. cbn.
    rewrite first_arg_value_spec. cbn. rewrite Hmark, Hdef, Hparams. cbn.
    rewrite first_arg_value_spec. cbn. rewrite Hmark. reflexivity.
Qed.

(** X11: when the first parameter can be passed by keyword and the binder
    raises, the exception reaches the caller and nothing is cached: the
    object is left as it was, so a later run calls the binder again. *)
Theorem binder_error_is_not_cached dk disambiguator e :
  is_first_arg_varpositional (sig_info dk)
  || is_first_arg_positional_only (sig_info dk) = false ->
  args dk = [] ->
  is_ (_first_arg_value dk) DecoratorUsageInfo_cls = true ->
  _bound dk = None ->
  bind (exposed_signature (sig_info dk)) (args dk) (kwargs dk) = Raise e ->
  disambiguate_call dk disambiguator = (Raise e, dk, [EBind])
  /\ disambiguate_call (state_of (disambiguate_call dk disambiguator)) disambiguator
     = (Raise e, dk, [EBind]).
Proof.
  intros Hkind Hargs Hmark Hnone Hbind.
  assert (Hrun : disambiguate_call dk disambiguator = (Raise e, dk, [EBind])).
  { rewrite disambiguate_call_unfold, Hkind. rewrite Hargs at 1.
    rewrite value_rules_unfold, first_arg_value_spec, Hmark, Hnone, Hbind.
    reflexivity. }
  rewrite Hrun. split; [reflexivity | exact Hrun].
Qed.

(** X12: when the value must come from the bound arguments and the binder
    left the first parameter out, the call raises [KeyError] on its name;
    the bound arguments stay cached. *)
Theorem missing_first_argument_raises_KeyError dk disambiguator b :
  result_of (count_rule dk) = Ok None ->
  let dk1 := state_of (count_rule dk) in
  is_ (_first_arg_value dk1) DecoratorUsageInfo_cls = true ->
  result_of (bound dk1) = Ok b ->
  arguments b !! first_arg_name (sig_info dk) = None ->
  result_of (disambiguate_call dk disambiguator)
    = Raise (KeyError (first_arg_name (sig_info dk)))
  /\ _bound (state_of (disambiguate_call dk disambiguator)) = Some b.
Proof.
  intros Hcount dk1 Hmark Hbound Hnone. subst dk1.
  unfold disambiguate_call, mbind, M_bind.
  pose proof (count_rule_sig_info dk) as Hsig.
  destruct (count_rule dk) as [[rc dk1] tc] eqn:Hc.
  specialize (Hsig _ _ _ eq_refl).
  unfold result_of, state_of in *. cbn [fst snd] in *. subst rc.
  rewrite bound_spec, Hsig in Hbound.
  rewrite value_rules_unfold, first_arg_value_spec, Hmark, Hsig.
  destruct (_bound dk1) as [b'|] eqn:Hb'.
  - cbn in Hbound. injection Hbound as ->. rewrite Hnone. split; [reflexivity | exact Hb'].
  - destruct (bind _ _ _) as [b'|e']; cbn in Hbound; [|discriminate].
    injection Hbound as ->. rewrite Hnone. split; reflexivity.
Qed.

Lemma scan_bound_verdict b params verdict :
  scan_bound b params = Ok (Some verdict) -> verdict = is_normal_arg.
Proof.
  induction params as [|[n q] rest IH]; simpl; [discriminate|].
  destruct (arguments b !! n) as [x|]; [|discriminate].
  destruct (negb (is_ x (default q))); [intros [= <-]; reflexivity | exact IH].
Qed.

Ltac scan_verdicts :=
  repeat match goal with
  | H : scan_bound _ _ = Ok (Some _) |- _ => apply scan_bound_verdict in H; subst
  end.

(** What steps (2) and (3) keep and do, on any object. *)
Lemma value_rules_facts f dk r dk' t :
  value_rules f dk = (r, dk', t) ->
  (forall b, _bound dk = Some b -> _bound dk' = Some b /\ bind_calls t = 0)
  /\ (_bound dk = None ->
      bind_calls t <= 1
      /\ (_bound dk' = None /\ (bind_calls t = 0 \/ exists e, r = Raise e)
          \/ exists b, bind (exposed_signature (sig_info dk)) (args dk) (kwargs dk) = Ok b
                       /\ _bound dk' = Some b))
  /\ (fallback_calls t = [] /\ (r = Ok is_normal_arg \/ exists e, r = Raise e)
      \/ exists v, fallback_calls t = [v] /\ r = f v
                   /\ can_arg_be_a_decorator_target v = true
                   /\ is_ v (default (first_arg_def (sig_info dk))) = false).
Proof.
  intros Hrun. split; [|split].
  - intros b Hb. crunch_run; split; reflexivity.
  - intros Hb. crunch_run; (split; [cbn; lia|]);
      first
        [ left; split;
          [ (reflexivity || assumption)
          | first [ left; reflexivity | right; eexists; reflexivity ] ]
        | right; eexists; split; [eassumption | reflexivity]
        | eauto 8 ].
  - crunch_run; scan_verdicts;
      first
        [ left; split;
          [ reflexivity
          | first [ left; reflexivity | right; eexists; reflexivity ] ]
        | right; eexists; repeat split; try reflexivity;
          rewrite ?negb_false_iff in *; congruence ].
Qed.

Lemma disambiguate_call_facts f dk r dk' t :
  disambiguate_call dk f = (r, dk', t) ->
  (sig_info dk' = sig_info dk /\ args dk' = args dk /\ kwargs dk' = kwargs dk)
  /\ (forall b, _bound dk = Some b -> _bound dk' = Some b /\ bind_calls t = 0)
  /\ (_bound dk = None ->
      bind_calls t <= 1
      /\ (_bound dk' = None /\ (bind_calls t = 0 \/ exists e, r = Raise e)
          \/ exists b, bind (exposed_signature (sig_info dk)) (args dk) (kwargs dk) = Ok b
                       /\ _bound dk' = Some b))
  /\ (fallback_calls t = [] /\ (r = Ok is_normal_arg \/ exists e, r = Raise e)
      \/ exists v, fallback_calls t = [v] /\ r = f v
                   /\ can_arg_be_a_decorator_target v = true
                   /\ is_ v (default (first_arg_def (sig_info dk))) = false).
Proof.
  rewrite disambiguate_call_unfold.
  assert (Htrivial : forall r0, (r0 = Ok is_normal_arg \/ exists e, r0 = Raise e) ->
            (r0, dk, @nil Event) = (r, dk', t) ->
            (sig_info dk' = sig_info dk /\ args dk' = args dk /\ kwargs dk' = kwargs dk)
            /\ (forall b, _bound dk = Some b -> _bound dk' = Some b /\ bind_calls t = 0)
            /\ (_bound dk = None ->
                bind_calls t <= 1
                /\ (_bound dk' = None /\ (bind_calls t = 0 \/ exists e, r = Raise e)
                    \/ exists b,
                         bind (exposed_signature (sig_info dk)) (args dk) (kwargs dk) = Ok b
                         /\ _bound dk' = Some b))
            /\ (fallback_calls t = [] /\ (r = Ok is_normal_arg \/ exists e, r = Raise e)
                \/ exists v, fallback_calls t = [v] /\ r = f v
                             /\ can_arg_be_a_decorator_target v = true
                             /\ is_ v (default (first_arg_def (sig_info dk))) = false)).
  { intros r0 Hr0 [= <- <- <-]. repeat split; auto. }
  destruct (_ || _); destruct (args dk) as [|a0 [|a1 l]] eqn:Hargs;
    try (apply Htrivial; eauto; fail).
  - intros Hrun.
    destruct (value_rules_frame _ _ _ _ _ Hrun) as (Hs & Ha & Hk).
    destruct (value_rules_facts _ _ _ _ _ Hrun) as (Hc & Hn & Hf).
    cbn [with_first_arg_value sig_info args kwargs _bound] in *.
    rewrite Hargs in Ha, Hn. auto.
  - intros Hrun.
    destruct (value_rules_frame _ _ _ _ _ Hrun) as (Hs & Ha & Hk).
    destruct (value_rules_facts _ _ _ _ _ Hrun) as (Hc & Hn & Hf).
    rewrite Hargs in Ha, Hn. auto.
Qed.

(** X13: a run never touches the call it works on, calls the binder at
    most once, never calls it and never replaces the bound arguments when
    they are cached already, and caches nothing but what the binder
    returned. *)
Theorem binder_called_at_most_once dk f :
  let run := disambiguate_call dk f in
  (sig_info (state_of run) = sig_info dk /\ args (state_of run) = args dk
   /\ kwargs (state_of run) = kwargs dk)
  /\ bind_calls (log_of run) <= 1
  /\ (forall b, _bound dk = Some b ->
        _bound (state_of run) = Some b /\ bind_calls (log_of run) = 0)
  /\ (forall b, _bound dk = None -> _bound (state_of run) = Some b ->
        bind (exposed_signature (sig_info dk)) (args dk) (kwargs dk) = Ok b).
Proof.
  intros run. subst run. unfold state_of, log_of.
  destruct (disambiguate_call dk f) as [[r dk'] t] eqn:Hrun. cbn [fst snd].
  destruct (disambiguate_call_facts _ _ _ _ _ Hrun) as (Hframe & Hc & Hn & _).
  split; [exact Hframe|]. split; [|split].
  - destruct (_bound dk) as [b|] eqn:Hb.
    + destruct (Hc b eq_refl) as [_ ->]. lia.
    + apply Hn. reflexivity.
  - exact Hc.
  - intros b Hnone Hb. destruct (Hn Hnone) as [_ [[Hb' _] | (b' & Hbind & Hb')]];
      congruence.
Qed.

(** X14: the engine answers [is_normal_arg] or raises on its own account
    only; any other outcome is the fallback's, returned unchanged. The
    fallback is called at most once, and only on a value that can be a
    decoration target and is not the default of the first parameter. *)
Theorem fallback_contract dk f :
  let run := disambiguate_call dk f in
  (fallback_calls (log_of run) = []
   /\ (result_of run = Ok is_normal_arg \/ exists e, result_of run = Raise e))
  \/ exists v, fallback_calls (log_of run) = [v]
               /\ result_of run = f v
               /\ can_arg_be_a_decorator_target v = true
               /\ is_ v (default (first_arg_def (sig_info dk))) = false.
Proof.
  intros run. subst run. unfold result_of, log_of.
  destruct (disambiguate_call dk f) as [[r dk'] t] eqn:Hrun. cbn [fst snd].
  apply (disambiguate_call_facts _ _ _ _ _ Hrun).
Qed.

Lemma scan_bound_absent b pre name p post :
  (forall n q, In (n, q) pre ->
     exists x, arguments b !! n = Some x /\ is_ x (default q) = true) ->
  arguments b !! name = None ->
  scan_bound b (pre ++ (name, p) :: post) = Raise (KeyError name).
Proof.
  intros Hpre Hname. induction pre as [|[n q] rest IH]; simpl.
  - rewrite Hname. reflexivity.
  - destruct (Hpre n q) as (x & -> & ->); [left; reflexivity|]. simpl.
    apply IH. intros n' q' Hin. apply (Hpre n' q'). right. exact Hin.
Qed.

(** The state in which steps (2) and (3) have read a first-argument value
    [v] that can be a target and is not the default: what is left is the
    loop and the fallback. *)
Lemma value_rules_after_reads f dk v dk2 t1 :
  first_arg_value dk = (Ok v, dk2, t1) ->
  can_arg_be_a_decorator_target v = true ->
  is_ v (default (first_arg_def (sig_info dk))) = false ->
  value_rules f dk =
    let t2 := if is_ v DecoratorUsageInfo_cls then [EFirstArgRead] else [] in
    match parameters (exposed_signature (sig_info dk)) with
    | [] => (Raise StopIteration, dk2, t1 ++ t2 ++ [])
    | _ :: params =>
        match scan_other_params params dk2 with
        | (Raise e, dk3, t3) => (Raise e, dk3, t1 ++ t2 ++ t3)
        | (Ok (Some verdict), dk3, t3) => (Ok verdict, dk3, t1 ++ t2 ++ t3 ++ [])
        | (Ok None, dk3, t3) =>
            match first_arg_value dk3 with
            | (Raise e, dk4, t4) => (Raise e, dk4, t1 ++ t2 ++ t3 ++ t4)
            | (Ok v3, dk4, t4) => (f v3, dk4, t1 ++ t2 ++ t3 ++ t4 ++ [EFallback v3])
            end
        end
    end.
Proof.
  intros H1 Htarget Hdefault.
  rewrite value_rules_unfold, H1, Htarget. cbn [negb].
  rewrite (first_arg_value_again _ _ _ _ H1), Hdefault. reflexivity.
Qed.

(** X15: when the count rule leaves the call open and the value of the
    first argument is neither callable nor a class, the verdict is
    [is_normal_arg], whatever the other parameters are bound to: the loop is
    not run and the fallback is not called. *)
Theorem non_target_is_normal_arg dk f v :
  result_of (count_rule dk) = Ok None ->
  result_of (first_arg_value (state_of (count_rule dk))) = Ok v ->
  can_arg_be_a_decorator_target v = false ->
  let run := disambiguate_call dk f in
  result_of run = Ok is_normal_arg
  /\ state_of run = state_of (first_arg_value (state_of (count_rule dk)))
  /\ fallback_calls (log_of run) = [].
Proof.
  intros Hcount Hfirst Htarget run. subst run.
  unfold disambiguate_call, mbind, M_bind.
  destruct (count_rule dk) as [[rc dk1] tc] eqn:Hc.
  unfold result_of, state_of, log_of in *. cbn [fst snd] in *. subst rc.
  assert (Htc : tc = []) by (rewrite count_rule_spec in Hc; crunch_run).
  subst tc.
  destruct (first_arg_value dk1) as [[r1 dk2] t1] eqn:H1. cbn [fst snd] in *. subst r1.
  rewrite value_rules_unfold, H1, Htarget. cbn.
  repeat split. rewrite first_arg_value_spec in H1. rewrite app_nil_r. crunch_run.
Qed.

(** X16: when the rules reach the loop, every parameter declared before
    [name] (after the first) is bound to its own default and [name] is not in
    the bound arguments, the call raises [KeyError] on [name]; the fallback
    is not called. *)
Theorem absent_parameter_raises_KeyError dk f v b first pre name p post :
  result_of (count_rule dk) = Ok None ->
  let dk1 := state_of (count_rule dk) in
  result_of (first_arg_value dk1) = Ok v ->
  let dk2 := state_of (first_arg_value dk1) in
  can_arg_be_a_decorator_target v = true ->
  is_ v (default (first_arg_def (sig_info dk))) = false ->
  parameters (exposed_signature (sig_info dk)) = first :: pre ++ (name, p) :: post ->
  result_of (bound dk2) = Ok b ->
  (forall n q, In (n, q) pre ->
     exists x, arguments b !! n = Some x /\ is_ x (default q) = true) ->
  arguments b !! name = None ->
  let run := disambiguate_call dk f in
  result_of run = Raise (KeyError name) /\ fallback_calls (log_of run) = [].
Proof.
  intros Hcount dk1 Hfirst dk2 Htarget Hdefault Hparams Hb Hpre Hname run.
  subst run dk2 dk1.
  unfold disambiguate_call, mbind, M_bind.
  pose proof (count_rule_sig_info dk) as Hsig.
  destruct (count_rule dk) as [[rc dk1] tc] eqn:Hc.
  specialize (Hsig _ _ _ eq_refl).
  unfold result_of, state_of, log_of in *. cbn [fst snd] in *. subst rc.
  assert (Htc : tc = []) by (rewrite count_rule_spec in Hc; crunch_run).
  subst tc.
  destruct (first_arg_value dk1) as [[r1 dk2] t1] eqn:H1. cbn [fst snd] in *. subst r1.
  rewrite <- Hsig in Hdefault, Hparams.
  rewrite (value_rules_after_reads f dk1 v dk2 t1 H1 Htarget Hdefault), Hparams.
  pose proof (scan_bound_absent b pre name p post Hpre Hname) as Hscan.
  assert (Hlog1 : fallback_calls t1 = []).
  { rewrite first_arg_value_spec in H1. crunch_run. }
  rewrite scan_other_params_spec. rewrite bound_spec in Hb.
  destruct (pre ++ (name, p) :: post) as [|p0 ps] eqn:E; [by destruct pre|].
  destruct (_bound dk2) as [b0|].
  - cbn in Hb. injection Hb as ->. rewrite Hscan. cbn.
    split; [reflexivity|]. rewrite !fallback_calls_app, Hlog1.
    destruct (is_ v DecoratorUsageInfo_cls); reflexivity.
  - destruct (bind _ _ _) as [b0|e]; cbn in Hb; [injection Hb as -> | discriminate].
    rewrite Hscan. cbn.
    split; [reflexivity|]. rewrite !fallback_calls_app, Hlog1.
    destruct (is_ v DecoratorUsageInfo_cls); reflexivity.
Qed.

(** X17: both properties are memoized. Once [bound] has returned, it
    returns the same bound arguments again without calling the binder; once
    [first_arg_value] has returned a value that is not the 'uninitialized'
    marker, it returns that value again without looking anything up. Either
    way the object is left alone. *)
Theorem properties_are_memoized dk dk' t :
  (forall b, bound dk = (Ok b, dk', t) -> bound dk' = (Ok b, dk', []))
  /\ (forall v, first_arg_value dk = (Ok v, dk', t) ->
        is_ v DecoratorUsageInfo_cls = false ->
        first_arg_value dk' = (Ok v, dk', [])).
Proof.
  split.
  - intros b. rewrite (bound_spec dk).
    destruct (_bound dk) as [b0|] eqn:Hb.
    + intros [= <- <- <-]. apply bound_cached, Hb.
    + destruct (bind _ _ _) as [b0|e]; [|discriminate].
      intros [= <- <- <-]. apply bound_cached. reflexivity.
  - intros v Hread Hmark.
    rewrite (first_arg_value_again _ _ _ _ Hread), Hmark. reflexivity.
Qed.

(** X18: the direct assignment of step (1) is lost when the single
    positional argument is the class [DecoratorUsageInfo] itself: it reads as
    'uninitialized', so the first-argument value is what the binder gives the
    first parameter, and the call is a normal-argument call when that value
    cannot be a target. *)
Theorem marker_positional_is_read_from_binder dk f b v :
  is_first_arg_varpositional (sig_info dk)
  || is_first_arg_positional_only (sig_info dk) = true ->
  args dk = [DecoratorUsageInfo_cls] ->
  _bound dk = None ->
  bind (exposed_signature (sig_info dk)) (args dk) (kwargs dk) = Ok b ->
  arguments b !! first_arg_name (sig_info dk) = Some v ->
  first_arg_value (state_of (count_rule dk))
    = (Ok v, with_first_arg_value (with_bound dk b) v, [EBind; EFirstArgRead])
  /\ (can_arg_be_a_decorator_target v = false ->
      result_of (disambiguate_call dk f) = Ok is_normal_arg).
Proof.
  intros Hkind Hargs Hnone Hbind Hv.
  assert (Hread :
    first_arg_value (with_first_arg_value dk DecoratorUsageInfo_cls)
    = (Ok v, with_first_arg_value (with_bound dk b) v, [EBind; EFirstArgRead])).
  { rewrite first_arg_value_spec. cbn. rewrite Hnone, Hbind, Hv. reflexivity. }
  split.
  - rewrite count_rule_spec, Hkind. rewrite Hargs at 1. exact Hread.
  - intros Htarget. rewrite disambiguate_call_unfold, Hkind. rewrite Hargs at 1.
    rewrite value_rules_unfold, Hread, Htarget. reflexivity.
Qed.

(** X19: the engine and the last-resort disambiguator together, for a
    decorator whose exposed signature has a single parameter: when the count
    rule leaves the call open, the value [v] of the first argument can be a
    target and is not the default, the call site gives no verdict, no
    elimination applies and there is no custom disambiguator, the answer is
    the override if it is set, [is_decorated_target] if it is not and the
    first parameter is mandatory, and the internal error otherwise. *)
Theorem single_parameter_decorator dk calframe impl_function
    is_function_decorator is_class_decorator can_first_arg_be_ambiguous
    enable_stack_introspection v first :
  result_of (count_rule dk) = Ok None ->
  result_of (first_arg_value (state_of (count_rule dk))) = Ok v ->
  can_arg_be_a_decorator_target v = true ->
  is_ v (default (first_arg_def (sig_info dk))) = false ->
  parameters (exposed_signature (sig_info dk)) = [first] ->
  introspection_silent calframe impl_function v enable_stack_introspection ->
  not_eliminated is_function_decorator is_class_decorator v ->
  result_of (disambiguate_call dk
    (create_single_arg_callable_or_class_disambiguator calframe impl_function
       is_function_decorator is_class_decorator can_first_arg_be_ambiguous None
       enable_stack_introspection (sig_info dk)))
  = match can_first_arg_be_ambiguous with
    | Some true => Ok is_ambiguous
    | Some false => Ok is_decorated_target
    | None =>
        if is_first_arg_mandatory (sig_info dk) then Ok is_decorated_target
        else Raise internal_error_not_hit
    end.
Proof.
  intros Hcount Hfirst Htarget Hdefault Hparams Hsilent Helim.
  unfold disambiguate_call, mbind, M_bind.
  pose proof (count_rule_sig_info dk) as Hsig.
  destruct (count_rule dk) as [[rc dk1] tc] eqn:Hc.
  specialize (Hsig _ _ _ eq_refl).
  unfold result_of, state_of in *. cbn [fst snd] in *. subst rc.
  destruct (first_arg_value dk1) as [[r1 dk2] t1] eqn:H1. cbn [fst snd] in *. subst r1.
  rewrite <- Hsig in Hdefault, Hparams.
  rewrite (value_rules_after_reads _ dk1 v dk2 t1 H1 Htarget Hdefault), Hparams.
  cbn [scan_other_params mret M_ret].
  rewrite (first_arg_value_again _ _ _ _ H1). cbn [fst snd].
  rewrite (last_resort_static_rules _ _ _ _ _ _ _ None _ Hsilent Helim).
  reflexivity.
Qed.

(** * Examples for the further properties *)

Lemma cannot_be_target_is_normal_arg_witness :
  create_single_arg_callable_or_class_disambiguator [] my_decorator false true
    (Some true) (Some (always is_decorated_target)) false info_f some_function
  = Ok is_normal_arg.
Proof.
  apply (cannot_be_target_is_normal_arg [] my_decorator false true info_f
           some_function (Some true) (Some (always is_decorated_target)) false).
  - intros H. discriminate H.
  - left. reflexivity.
Defined.

Lemma last_resort_raises_iff_witness :
  create_single_arg_callable_or_class_disambiguator [] my_decorator true true
    None None false info_f_optional some_function = Raise internal_error_not_hit.
Proof.
  apply (proj2 (last_resort_raises_iff [] my_decorator true true info_f_optional
                  some_function None false internal_error_not_hit)).
  split; [reflexivity|]. split; [intros H; discriminate H|].
  split; [split; reflexivity|]. split; reflexivity.
Defined.

Lemma ambiguous_only_when_forced_witness :
  Some true = Some true.
Proof.
  apply (ambiguous_only_when_forced [] my_decorator true true info_f
           some_function (Some true) false).
  reflexivity.
Defined.

Lemma introspection_is_idle_on_classes_witness :
  create_single_arg_callable_or_class_disambiguator
    (stack_with_call_site (frame_of "a.py" "@deco(1)")) my_decorator true true
    None None true info_f some_class
  = create_single_arg_callable_or_class_disambiguator
      (stack_with_call_site (frame_of "a.py" "@deco(1)")) my_decorator true true
      None None false info_f some_class.
Proof.
  apply (introspection_is_idle_on_classes
           (stack_with_call_site (frame_of "a.py" "@deco(1)")) my_decorator true true
           info_f some_class None None).
  reflexivity.
Defined.


Lemma no_positional_is_normal_arg_witness :
  disambiguate_call
    (new_DecoratorUsageInfo info_posonly_f_b [] {[ "b"%string := forty_two ]})
    (always is_decorated_target)
  = (Ok is_normal_arg,
     new_DecoratorUsageInfo info_posonly_f_b [] {[ "b"%string := forty_two ]}, []).
Proof.
  apply (no_positional_is_normal_arg
           (new_DecoratorUsageInfo info_posonly_f_b [] {[ "b"%string := forty_two ]})
           (always is_decorated_target)).
  - reflexivity.
  - reflexivity.
Defined.

Lemma single_positional_never_binds_witness :
  disambiguate_call (new_DecoratorUsageInfo info_posonly_f [forty_two] ∅)
    (always is_decorated_target)
  = (Ok is_normal_arg,
     with_first_arg_value (new_DecoratorUsageInfo info_posonly_f [forty_two] ∅)
       forty_two, [])
  /\ disambiguate_call (new_DecoratorUsageInfo info_posonly_f [some_function] ∅)
       (always is_ambiguous)
     = (Ok is_ambiguous,
        with_first_arg_value (new_DecoratorUsageInfo info_posonly_f [some_function] ∅)
          some_function, [EFallback some_function]).
Proof.
  split.
  - refine (proj1 (single_positional_never_binds
      (new_DecoratorUsageInfo info_posonly_f [forty_two] ∅)
      (always is_decorated_target) forty_two _ _ _) _).
    + reflexivity.
    + reflexivity.
    + reflexivity.
    + left. reflexivity.
  - refine (proj2 (single_positional_never_binds
      (new_DecoratorUsageInfo info_posonly_f [some_function] ∅)
      (always is_ambiguous) some_function _ _ _) _ _ _).
    + reflexivity.
    + reflexivity.
    + reflexivity.
    + reflexivity.
    + reflexivity.
    + exists ("f"%string, mandatory POSITIONAL_ONLY). reflexivity.
Defined.

Lemma binder_error_is_not_cached_witness :
  let dk := new_DecoratorUsageInfo info_f_g [] {[ "f"%string := some_function ]} in
  disambiguate_call dk (always is_decorated_target)
    = (Raise (TypeError "missing a required argument: 'g'"), dk, [EBind])
  /\ disambiguate_call (state_of (disambiguate_call dk (always is_decorated_target)))
       (always is_decorated_target)
     = (Raise (TypeError "missing a required argument: 'g'"), dk, [EBind]).
Proof.
  apply (binder_error_is_not_cached
           (new_DecoratorUsageInfo info_f_g [] {[ "f"%string := some_function ]})
           (always is_decorated_target) (TypeError "missing a required argument: 'g'")).
  - reflexivity.
  - reflexivity.
  - reflexivity.
  - reflexivity.
  - reflexivity.
Defined.

Lemma missing_first_argument_raises_KeyError_witness :
  let dk := new_DecoratorUsageInfo info_f_optional [] ∅ in
  result_of (disambiguate_call dk (always is_decorated_target)) = Raise (KeyError "f")
  /\ _bound (state_of (disambiguate_call dk (always is_decorated_target)))
     = Some {| arguments := ∅ |}.
Proof.
  apply (missing_first_argument_raises_KeyError
           (new_DecoratorUsageInfo info_f_optional [] ∅)
           (always is_decorated_target) {| arguments := ∅ |}).
  - reflexivity.
  - reflexivity.
  - reflexivity.
  - reflexivity.
Defined.

Lemma non_target_is_normal_arg_witness :
  let dk := new_DecoratorUsageInfo info_f_b []
              {[ "f"%string := forty_two; "b"%string := forty_two ]} in
  let run := disambiguate_call dk (always is_decorated_target) in
  result_of run = Ok is_normal_arg
  /\ state_of run = state_of (first_arg_value (state_of (count_rule dk)))
  /\ fallback_calls (log_of run) = [].
Proof.
  apply (non_target_is_normal_arg
           (new_DecoratorUsageInfo info_f_b []
              {[ "f"%string := forty_two; "b"%string := forty_two ]})
           (always is_decorated_target) forty_two).
  - reflexivity.
  - reflexivity.
  - reflexivity.
Defined.

Lemma absent_parameter_raises_KeyError_witness :
  let dk := new_DecoratorUsageInfo info_f_rest_c []
              {[ "f"%string := some_function; "c"%string := forty_two ]} in
  let run := disambiguate_call dk (always is_decorated_target) in
  result_of run = Raise (KeyError "rest") /\ fallback_calls (log_of run) = [].
Proof.
  apply (absent_parameter_raises_KeyError
           (new_DecoratorUsageInfo info_f_rest_c []
              {[ "f"%string := some_function; "c"%string := forty_two ]})
           (always is_decorated_target) some_function
           {| arguments := {[ "f"%string := some_function; "c"%string := forty_two ]} |}
           ("f"%string, mandatory POSITIONAL_OR_KEYWORD) [] "rest" var_positional
           [("c"%string, optional KEYWORD_ONLY default_c)]).
  - reflexivity.
  - reflexivity.
  - reflexivity.
  - reflexivity.
  - reflexivity.
  - reflexivity.
  - intros n q [].
  - reflexivity.
Defined.

Lemma marker_positional_is_read_from_binder_witness :
  result_of (disambiguate_call
    (new_DecoratorUsageInfo info_varargs [DecoratorUsageInfo_cls] ∅)
    (always is_decorated_target)) = Ok is_normal_arg.
Proof.
  refine (proj2 (marker_positional_is_read_from_binder
    (new_DecoratorUsageInfo info_varargs [DecoratorUsageInfo_cls] ∅)
    (always is_decorated_target)
    {| arguments := {[ "args"%string := Tuple [DecoratorUsageInfo_cls] ]} |}
    (Tuple [DecoratorUsageInfo_cls]) _ _ _ _ _) _); reflexivity.
Defined.

Lemma single_parameter_decorator_witness :
  result_of (disambiguate_call
    (new_DecoratorUsageInfo info_f [] {[ "f"%string := some_function ]})
    (create_single_arg_callable_or_class_disambiguator [] my_decorator true true
       None None false info_f))
  = Ok is_decorated_target.
Proof.
  apply (single_parameter_decorator
           (new_DecoratorUsageInfo info_f [] {[ "f"%string := some_function ]})
           [] my_decorator true true None false some_function
           ("f"%string, mandatory POSITIONAL_OR_KEYWORD)).
  - reflexivity.
  - reflexivity.
  - reflexivity.
  - reflexivity.
  - reflexivity.
  - intros H. discriminate H.
  - split; reflexivity.
Defined.
